(** * Earthquake dashboard: the data pipeline of [script.js]

    fetch -> normalize -> filter -> aggregate -> present.

    JavaScript numbers are IEEE 754 binary64 values; they are modelled by
    Rocq's primitive floats, whose comparisons treat NaN and the two zeros
    as JavaScript does.  Epoch timestamps are integers (milliseconds) and
    are modelled in [Z].  Strings are byte strings; case folding and
    trimming act on their ASCII part. *)

From Stdlib Require Import ZArith List Bool Lia Ascii String Floats.
From Stdlib Require Import Sorting.Sorted Sorting.Permutation.
From Stdlib Require Import DecimalString.
Import ListNotations.

Set Warnings "-inexact-float".

Local Open Scope list_scope.
Local Open Scope string_scope.

(** ** JavaScript values of a known type that may be absent *)

Module Js.

(** A property read yields [undefined] when the property is missing,
    [null] when the document says so, and a value otherwise. *)
Inductive js (A : Type) : Type :=
| undefined
| null
| val (a : A).

Arguments undefined {A}.
Arguments null {A}.
Arguments val {A} a.

(** [x != null] (loose inequality: false for both null and undefined). *)
Definition not_nullish {A} (x : js A) : bool :=
  match x with
  | val _ => true
  | _ => false
  end.

(** [x == null]. *)
Definition nullish {A} (x : js A) : bool := negb (not_nullish x).

(** ToNumber on a possibly absent number: [undefined] is NaN, [null] is +0. *)
Definition ToNumber (x : js float) : float :=
  match x with
  | undefined => nan
  | null => zero
  | val v => v
  end.

(** ToBoolean on a number: false exactly for +0, -0 and NaN. *)
Definition truthy_num (x : float) : bool := negb (is_zero x || is_nan x).

(** [x || d] for a possibly absent number [x]. *)
Definition num_or (x : js float) (d : float) : float :=
  match x with
  | val v => if truthy_num v then v else d
  | _ => d
  end.

(** ToBoolean on a possibly absent string: false for absent and for "". *)
Definition truthy_str (x : js string) : bool :=
  match x with
  | val EmptyString => false
  | val _ => true
  | _ => false
  end.

(** [x || d] for a possibly absent string. *)
Definition str_or (x : js string) (d : string) : string :=
  match x with
  | val s => if truthy_str x then s else d
  | _ => d
  end.

(** Relational operators on numbers.  [a >= b] is false when either side
    is NaN, so it is [b <= a] and not the negation of [a < b]. *)
Definition lt (a b : float) : bool := (a <? b)%float.
Definition ge (a b : float) : bool := (b <=? a)%float.

(** [Math.max(a, b)]: NaN if either is NaN; +0 is larger than -0. *)
Definition Math_max (a b : float) : float :=
  if is_nan a || is_nan b then nan
  else if (a <? b)%float then b
  else if (b <? a)%float then a
  else if is_zero a && negb (get_sign a) then a
  else b.

End Js.
Import Js.

(** ** Strings *)

Module Str.

Definition is_upper (c : ascii) : bool :=
  let n := nat_of_ascii c in (65 <=? n)%nat && (n <=? 90)%nat.

Definition lower_ascii (c : ascii) : ascii :=
  if is_upper c then ascii_of_nat (nat_of_ascii c + 32) else c.

(** [s.toLowerCase()] on a string of ASCII characters, where only A-Z
    change.  Other bytes are left as they are: properties that depend on
    the case of letters outside ASCII are stated for ASCII strings. *)
Fixpoint toLowerCase (s : string) : string :=
  match s with
  | EmptyString => EmptyString
  | String c s' => String (lower_ascii c) (toLowerCase s')
  end.

(** White space: TAB, LF, VT, FF, CR and SPACE. *)
Definition is_space (c : ascii) : bool :=
  let n := nat_of_ascii c in
  ((9 <=? n)%nat && (n <=? 13)%nat) || (n =? 32)%nat.

Fixpoint trimStart (s : string) : string :=
  match s with
  | EmptyString => EmptyString
  | String c s' => if is_space c then trimStart s' else s
  end.

Fixpoint trimEnd (s : string) : string :=
  match s with
  | EmptyString => EmptyString
  | String c s' =>
      match trimEnd s' with
      | EmptyString => if is_space c then EmptyString else String c EmptyString
      | t => String c t
      end
  end.

(** [s.trim()] on a string of ASCII characters, whose white space is the
    six characters of [is_space]. *)
Definition trim (s : string) : string := trimEnd (trimStart s).

(** [s.includes(t)]: [t] occurs in [s] at some position. *)
Fixpoint includes (s t : string) : bool :=
  prefix t s ||
  match s with
  | EmptyString => false
  | String _ s' => includes s' t
  end.

(** [`${n}`] for an integer, and for NaN. *)
Definition show_Z (z : Z) : string :=
  NilEmpty.string_of_int (Z.to_int z).

Definition show_num (n : option Z) : string :=
  match n with
  | Some z => show_Z z
  | None => "NaN"
  end.

End Str.
Import Str.

(** ** Data model *)

(** The feed document: [features[i].properties.{time,mag,place,url}] and
    [features[i].geometry.coordinates = [lon, lat, depth]]. *)
Record Properties := mkProperties {
  p_time : js Z;
  p_mag : js float;
  p_place : js string;
  p_url : js string
}.

Record Geometry := mkGeometry {
  coordinates : js (list (js float))
}.

Record Feature := mkFeature {
  f_id : js string;
  properties : js Properties;
  geometry : js Geometry
}.

(** The record built by [normalizeFeatures]. *)
Record Event := mkEvent {
  id : js string;
  time : js Z;
  mag : js float;
  place : js string;
  url : js string;
  depth : js float;
  lon : js float;
  lat : js float
}.

(** The user inputs read from the page.  [minMag_parsed] is the number
    [parseFloat(minMagEl.value)], NaN when the text does not parse. *)
Record Inputs := mkInputs {
  timeWindow : string;
  minMag_parsed : float;
  region : string
}.

(** [{}]: every property read yields [undefined]. *)
Definition empty_props : Properties :=
  mkProperties undefined undefined undefined undefined.

(** [a[i]] on an array: [undefined] past the end. *)
Definition at_index (a : list (js float)) (i : nat) : js float :=
  nth i a undefined.

(** ** Normalizer *)

Definition normalizeFeature (f : Feature) : Event :=
  let props :=
    match properties f with
    | val p => p
    | _ => empty_props
    end in
  let coords :=
    match geometry f with
    | val g =>
        match coordinates g with
        | val c => c
        | _ => [null; null; null]
        end
    | _ => [null; null; null]
    end in
  {| id := f_id f;
     time := p_time props;
     mag := p_mag props;
     place := p_place props;
     url := p_url props;
     depth := at_index coords 2;
     lon := at_index coords 0;
     lat := at_index coords 1 |}.

Definition normalizeFeatures (features : list Feature) : list Event :=
  filter (fun r => not_nullish (mag r) && not_nullish (time r))
         (map normalizeFeature features).

(** ** Filter *)

Definition minMag (inp : Inputs) : float :=
  if truthy_num (minMag_parsed inp) then minMag_parsed inp else zero.

Definition regionText (inp : Inputs) : string :=
  toLowerCase (trim (str_or (val (region inp)) "")).

Definition keep_record (inp : Inputs) (r : Event) : bool :=
  if lt (ToNumber (mag r)) (minMag inp) then false
  else if truthy_str (val (regionText inp)) then
    truthy_str (place r) &&
    match place r with
    | val p => includes (toLowerCase p) (regionText inp)
    | _ => false
    end
  else true.

Definition filterRecords (inp : Inputs) (records : list Event) : list Event :=
  filter (keep_record inp) records.

(** ** Objects used as counters

    [buckets], [cats] and [grouped] are objects whose properties hold
    counts.  [Object.keys] lists string keys in insertion order (none of
    the keys used here is an array index), so an object is an association
    list that grows at its end. *)

Module Obj.

Definition t := list (string * nat).

(** [o[k]]; [None] stands for [undefined]. *)
Fixpoint get (o : t) (k : string) : option nat :=
  match o with
  | [] => None
  | (k', v) :: o' => if String.eqb k' k then Some v else get o' k
  end.

(** [o[k] = v] *)
Fixpoint set (o : t) (k : string) (v : nat) : t :=
  match o with
  | [] => [(k, v)]
  | (k', v') :: o' =>
      if String.eqb k' k then (k', v) :: o' else (k', v') :: set o' k v
  end.

(** [o[k] = (o[k] || 0) + 1], and [o[k]++] on a property that exists. *)
Definition incr (o : t) (k : string) : t :=
  set o k (match get o k with Some n => n | None => 0 end + 1).

(** [Object.keys(o)] *)
Definition keys (o : t) : list string := List.map fst o.

End Obj.

(** What a chart builder hands to [new Chart]: the kind of chart, the
    labels and the data of its single dataset. *)
Record Chart := mkChart {
  chart_type : string;
  labels : list string;
  data : list (option nat)
}.

(** ** Dates (ECMAScript time values) *)

Module Date.

Local Open Scope Z_scope.

Definition msPerDay : Z := 86400000.
Definition msPerHour : Z := 3600000.
Definition maxTime : Z := 8640000000000000.

(** [new Date(v)]: the time value, or [None] for an invalid date. *)
Definition of_value (v : js Z) : option Z :=
  match v with
  | undefined => None
  | null => Some 0
  | val t => if Z.abs t <=? maxTime then Some t else None
  end.

Definition Day (t : Z) : Z := t / msPerDay.

Definition DaysInYear (y : Z) : Z :=
  if negb (y mod 4 =? 0) then 365
  else if negb (y mod 100 =? 0) then 366
  else if negb (y mod 400 =? 0) then 365
  else 366.

Definition DayFromYear (y : Z) : Z :=
  365 * (y - 1970) + (y - 1969) / 4 - (y - 1901) / 100 + (y - 1601) / 400.

(** The largest [y] with [DayFromYear y <= Day t]: a first estimate from
    the mean length of a year, then one step up or down. *)
Definition YearFromTime (t : Z) : Z :=
  let d := Day t in
  let y := 1970 + (400 * d) / 146097 in
  if DayFromYear (y + 1) <=? d then y + 1
  else if DayFromYear y <=? d then y
  else y - 1.

Definition InLeapYear (t : Z) : Z :=
  if DaysInYear (YearFromTime t) =? 366 then 1 else 0.

Definition DayWithinYear (t : Z) : Z :=
  Day t - DayFromYear (YearFromTime t).

Definition MonthFromTime (t : Z) : Z :=
  let d := DayWithinYear t in
  let l := InLeapYear t in
  if d <? 31 then 0
  else if d <? 59 + l then 1
  else if d <? 90 + l then 2
  else if d <? 120 + l then 3
  else if d <? 151 + l then 4
  else if d <? 181 + l then 5
  else if d <? 212 + l then 6
  else if d <? 243 + l then 7
  else if d <? 273 + l then 8
  else if d <? 304 + l then 9
  else if d <? 334 + l then 10
  else 11.

Definition DateFromTime (t : Z) : Z :=
  let d := DayWithinYear t in
  let l := InLeapYear t in
  match MonthFromTime t with
  | 0 => d + 1
  | 1 => d - 30
  | 2 => d - 58 - l
  | 3 => d - 89 - l
  | 4 => d - 119 - l
  | 5 => d - 150 - l
  | 6 => d - 180 - l
  | 7 => d - 211 - l
  | 8 => d - 242 - l
  | 9 => d - 272 - l
  | 10 => d - 303 - l
  | _ => d - 333 - l
  end.

Definition HourFromTime (t : Z) : Z := (t / msPerHour) mod 24.

(** The getters return NaN ([None]) on an invalid date. *)
Definition getUTCHours (d : option Z) : option Z := option_map HourFromTime d.
Definition getUTCMonth (d : option Z) : option Z := option_map MonthFromTime d.
Definition getUTCDate (d : option Z) : option Z := option_map DateFromTime d.

(** [n + 1] on a number that may be NaN. *)
Definition plus1 (n : option Z) : option Z := option_map (fun z => z + 1) n.

End Date.

(** ** Time-series aggregator *)

Definition time_label (inp : Inputs) (r : Event) : string :=
  let d := Date.of_value (time r) in
  if String.eqb (timeWindow inp) "hour" then
    show_num (Date.getUTCHours d) ++ ":00"
  else if String.eqb (timeWindow inp) "day" then
    show_num (Date.plus1 (Date.getUTCMonth d)) ++ "/" ++
    show_num (Date.getUTCDate d) ++ " " ++
    show_num (Date.getUTCHours d) ++ ":00"
  else
    show_num (Date.plus1 (Date.getUTCMonth d)) ++ "/" ++
    show_num (Date.getUTCDate d).

(** [a.sort()] on an array of strings: ascending in the order of their
    code units. *)
Fixpoint sort_insert (x : string) (l : list string) : list string :=
  match l with
  | [] => [x]
  | y :: l' => if String.leb x y then x :: l else y :: sort_insert x l'
  end.

Definition sort (l : list string) : list string :=
  fold_right sort_insert [] l.

Definition group_by_label (inp : Inputs) (records : list Event) : Obj.t :=
  fold_left (fun grouped r => Obj.incr grouped (time_label inp r)) records [].

Definition buildLineChart (inp : Inputs) (records : list Event) : Chart :=
  let grouped := group_by_label inp records in
  let labels := sort (Obj.keys grouped) in
  let data := map (fun l => Obj.get grouped l) labels in
  mkChart "line" labels data.

(** ** Magnitude aggregator *)

Definition mag_bucket (r : Event) : string :=
  let m := ToNumber (mag r) in
  if lt m 1 then "0-1"
  else if lt m 2 then "1-2"
  else if lt m 3 then "2-3"
  else if lt m 4 then "3-4"
  else if lt m 5 then "4-5"
  else "5+".

Definition empty_buckets : Obj.t :=
  [("0-1", 0); ("1-2", 0); ("2-3", 0); ("3-4", 0); ("4-5", 0); ("5+", 0)]%nat.

Definition buildBarChart (records : list Event) : Chart :=
  let buckets :=
    fold_left (fun b r => Obj.incr b (mag_bucket r)) records empty_buckets in
  let labels := Obj.keys buckets in
  let data := map (fun l => Obj.get buckets l) labels in
  mkChart "bar" labels data.

(** ** Depth aggregator *)

Definition depth_cat (r : Event) : string :=
  let d := num_or (depth r) 0 in
  if lt d 70 then "shallow"
  else if lt d 300 then "intermediate"
  else "deep".

Definition empty_cats : Obj.t :=
  [("shallow", 0); ("intermediate", 0); ("deep", 0)]%nat.

Definition buildPieChart (records : list Event) : Chart :=
  let cats :=
    fold_left (fun c r => Obj.incr c (depth_cat r)) records empty_cats in
  let labels :=
    ["Shallow (0-70km)"; "Intermediate (70-300km)"; "Deep (300+ km)"] in
  let data :=
    [Obj.get cats "shallow"; Obj.get cats "intermediate"; Obj.get cats "deep"] in
  mkChart "doughnut" labels data.

(** ** Feed selector *)

Definition getFeedUrl (windowKey : string) : string :=
  if String.eqb windowKey "hour" then
    "https://earthquake.usgs.gov/earthquakes/feed/v1.0/summary/all_hour.geojson"
  else if String.eqb windowKey "day" then
    "https://earthquake.usgs.gov/earthquakes/feed/v1.0/summary/all_day.geojson"
  else
    "https://earthquake.usgs.gov/earthquakes/feed/v1.0/summary/all_week.geojson".

(** ** Fetcher

    [fetchEarthquakes] writes the status line and may fail at three
    places.  It is a computation over the page state that completes
    normally or abruptly; [try_catch] is the [try]/[catch] statement. *)

Module Fetch.

Record Error := mkError { message : string }.

(** The part of the page the fetcher writes: the status line and the
    console. *)
Record Page := mkPage {
  STATUS : string;
  console : list (string * Error)
}.

Inductive Completion (A : Type) : Type :=
| Normal (a : A)
| Throw (e : Error).

Arguments Normal {A} a.
Arguments Throw {A} e.

Definition M (A : Type) : Type := Page -> Completion A * Page.

Definition ret {A} (a : A) : M A := fun p => (Normal a, p).

Definition throw {A} (e : Error) : M A := fun p => (Throw e, p).

Definition bind {A B} (m : M A) (k : A -> M B) : M B :=
  fun p =>
    match m p with
    | (Normal a, p') => k a p'
    | (Throw e, p') => (Throw e, p')
    end.

Definition try_catch {A} (body : M A) (handler : Error -> M A) : M A :=
  fun p =>
    match body p with
    | (Normal a, p') => (Normal a, p')
    | (Throw e, p') => handler e p'
    end.

Definition set_status (s : string) : M unit :=
  fun p => (Normal tt, mkPage s (console p)).

Definition console_error (s : string) (e : Error) : M unit :=
  fun p => (Normal tt, mkPage (STATUS p) (console p ++ [(s, e)])%list).

Notation "x <- m ;; k" := (bind m (fun x => k))
  (at level 61, m at next level, right associativity).
Notation "m ;;; k" := (bind m (fun _ => k))
  (at level 61, right associativity).

(** What the body of a response turns out to be when [res.json()] is
    awaited: not JSON at all, the JSON value [null] (reading a property
    of it throws), or a document whose [features] may be absent. *)
Inductive Body :=
| NotJson (e : Error)
| JsonNull
| JsonDoc (features : js (list Feature)).

Record Response := mkResponse {
  status : nat;
  body : Body
}.

(** [res.ok]: the status is in the range 200-299. *)
Definition ok (res : Response) : bool :=
  (200 <=? status res)%nat && (status res <=? 299)%nat.

(** What [fetch(url)] settles to. *)
Inductive Outcome :=
| Rejected (e : Error)
| Resolved (res : Response).

(** The world outside the page: the network, and the clock as
    [new Date().toLocaleTimeString()] prints it. *)
Record World := mkWorld {
  fetch : string -> Outcome;
  clock : string
}.

Definition await_fetch (w : World) (url : string) : M Response :=
  match fetch w url with
  | Rejected e => throw e
  | Resolved res => ret res
  end.

Definition TypeError_null : Error :=
  mkError "Cannot read properties of null (reading 'features')".

(** [await res.json()] followed by [geo.features || []]. *)
Definition await_features (res : Response) : M (list Feature) :=
  match body res with
  | NotJson e => throw e
  | JsonNull => throw TypeError_null
  | JsonDoc (val features) => ret features
  | JsonDoc _ => ret []
  end.

Definition show_nat (n : nat) : string := show_Z (Z.of_nat n).

Definition fetchEarthquakes (w : World) (inp : Inputs) : M (list Feature) :=
  let feed := getFeedUrl (timeWindow inp) in
  set_status ("Fetching live data from USGS (" ++ timeWindow inp ++ ")...") ;;;
  try_catch
    (res <- await_fetch w feed ;;
     if negb (ok res) then
       throw (mkError ("HTTP " ++ show_nat (status res)))
     else
       features <- await_features res ;;
       set_status ("Fetched " ++ show_nat (List.length features) ++
                   " events — " ++ clock w) ;;;
       ret features)
    (fun err =>
       console_error "Fetch error" err ;;;
       set_status ("Failed to fetch live data: " ++ message err) ;;;
       ret []).

(** The outcomes that count as a failure of the fetch. *)
Inductive failure : Outcome -> Error -> Prop :=
| fail_network e :
    failure (Rejected e) e
| fail_status res :
    ok res = false ->
    failure (Resolved res) (mkError ("HTTP " ++ show_nat (status res)))
| fail_parse res e :
    ok res = true -> body res = NotJson e ->
    failure (Resolved res) e
| fail_null res :
    ok res = true -> body res = JsonNull ->
    failure (Resolved res) TypeError_null.

End Fetch.

(** ** Map renderer *)

(** A circle on the map.  The popup text is not part of the model. *)
Record Marker := mkMarker {
  center : js float * js float;
  radius : float;
  color : string;
  fillColor : string;
  fillOpacity : float
}.

(** The marker layer: [None] until [initMap] has created the map. *)
Definition MarkersLayer := option (list Marker).

Definition initMap (st : MarkersLayer) : MarkersLayer :=
  match st with
  | Some _ => st
  | None => Some []
  end.

Definition clearLayers (st : MarkersLayer) : MarkersLayer :=
  option_map (fun _ => []) st.

Definition addLayer (st : MarkersLayer) (m : Marker) : MarkersLayer :=
  option_map (fun ms => ms ++ [m])%list st.

Definition marker_color (r : Event) : string :=
  if ge (ToNumber (mag r)) 5 then "#ff4d4f"
  else if ge (ToNumber (mag r)) 4 then "#ff9f40"
  else "#36a2eb".

Definition marker_radius (r : Event) : float :=
  Math_max 4000 (num_or (mag r) 0 * 40000).

Definition circle (r : Event) : Marker :=
  let color := marker_color r in
  {| center := (lat r, lon r);
     radius := marker_radius r;
     color := color;
     fillColor := color;
     fillOpacity := 0.5 |}.

Definition updateMap (st : MarkersLayer) (records : list Event) : MarkersLayer :=
  let st := match st with None => initMap st | Some _ => st end in
  let st := clearLayers st in
  fold_left
    (fun st r =>
       if nullish (lat r) || nullish (lon r) then st
       else addLayer st (circle r))
    (firstn 500 records) st.

(** * Properties *)

(** ** The order of binary64 values *)

Module FloatOrder.

(** Case analysis on the signs and on the comparisons of exponents and
    mantissas that [SFcompare] performs. *)
Ltac cmp_step :=
  match goal with
  | s : bool |- _ => destruct s
  | H : context [(?a ?= ?b)%Z] |- _ => destruct (Z.compare_spec a b)
  | |- context [(?a ?= ?b)%Z] => destruct (Z.compare_spec a b)
  | H : context [Pos.compare_cont Eq ?a ?b] |- _ =>
      change (Pos.compare_cont Eq a b) with (Pos.compare a b) in *;
      destruct (Pos.compare_spec a b)
  | |- context [Pos.compare_cont Eq ?a ?b] =>
      change (Pos.compare_cont Eq a b) with (Pos.compare a b) in *;
      destruct (Pos.compare_spec a b)
  end.

Ltac cmp_cases :=
  repeat (simpl in *; subst;
          first [ discriminate | reflexivity | lia | cmp_step ]).

Lemma SFcompare_swap (x y : spec_float) :
  SFcompare y x = option_map CompOpp (SFcompare x y).
Proof.
  destruct x as [sx|sx| |sx mx ex], y as [sy|sy| |sy my ey]; cmp_cases.
Qed.

Lemma SFltb_SFleb_trans (x y z : spec_float) :
  SFltb x y = true -> SFleb y z = true -> SFltb x z = true.
Proof.
  unfold SFltb, SFleb; intros Hxy Hyz.
  destruct x as [sx|sx| |sx mx ex], y as [sy|sy| |sy my ey],
           z as [sz|sz| |sz mz ez]; cmp_cases.
Qed.

Lemma SFcompare_refl (x : spec_float) :
  x <> S754_nan -> SFcompare x x = Some Eq.
Proof.
  destruct x as [sx|sx| |sx mx ex]; intros Hx; try congruence; cmp_cases.
Qed.

(** A zero compares like +0 whatever its sign. *)
Lemma SFcompare_zero_l (s : bool) (y : spec_float) :
  SFcompare (S754_zero s) y = SFcompare (S754_zero false) y.
Proof. destruct y; reflexivity. Qed.

Lemma SFcompare_zero_r (s : bool) (x : spec_float) :
  SFcompare x (S754_zero s) = SFcompare x (S754_zero false).
Proof. destruct x; reflexivity. Qed.

Lemma is_nan_true (x : float) : is_nan x = true <-> Prim2SF x = S754_nan.
Proof.
  unfold is_nan. rewrite eqb_spec. unfold SFeqb. split.
  - destruct (Prim2SF x) eqn:E; try reflexivity;
      rewrite SFcompare_refl by discriminate; discriminate.
  - intros ->. reflexivity.
Qed.

Lemma is_nan_false (x : float) : is_nan x = false <-> Prim2SF x <> S754_nan.
Proof.
  rewrite <- is_nan_true. destruct (is_nan x); split; congruence.
Qed.

Lemma is_zero_true (x : float) :
  is_zero x = true <-> exists s, Prim2SF x = S754_zero s.
Proof.
  unfold is_zero. rewrite eqb_spec. unfold SFeqb.
  change (Prim2SF zero) with (S754_zero false). split.
  - destruct (Prim2SF x) as [s|s| |s m e]; try discriminate.
    + eauto.
    + destruct s; discriminate.
    + destruct s; discriminate.
  - intros [s ->]. reflexivity.
Qed.

(** [x < y] and [x <= y] are false as soon as one side is NaN. *)
Lemma ltb_not_nan (x y : float) :
  (x <? y)%float = true -> is_nan x = false /\ is_nan y = false.
Proof.
  rewrite ltb_spec, !is_nan_false. unfold SFltb.
  destruct (Prim2SF x), (Prim2SF y); simpl; try discriminate;
    intros _; split; discriminate.
Qed.

Lemma leb_not_nan (x y : float) :
  (x <=? y)%float = true -> is_nan x = false /\ is_nan y = false.
Proof.
  rewrite leb_spec, !is_nan_false. unfold SFleb.
  destruct (Prim2SF x), (Prim2SF y); simpl; try discriminate;
    intros _; split; discriminate.
Qed.

Lemma ltb_leb_trans (x y z : float) :
  (x <? y)%float = true -> (y <=? z)%float = true -> (x <? z)%float = true.
Proof. rewrite !ltb_spec, leb_spec. apply SFltb_SFleb_trans. Qed.

(** On numbers that are not NaN the order is total: [x < y] is exactly
    the negation of [y <= x]. *)
Lemma ltb_negb_leb (x y : float) :
  is_nan x = false -> is_nan y = false ->
  (x <? y)%float = negb (y <=? x)%float.
Proof.
  rewrite !is_nan_false, ltb_spec, leb_spec. unfold SFltb, SFleb.
  rewrite (SFcompare_swap (Prim2SF x) (Prim2SF y)). intros Hx Hy.
  destruct (Prim2SF x), (Prim2SF y); try congruence; simpl;
    match goal with
    | |- context [SFcompare ?a ?b] => destruct (SFcompare a b) as [[]|]
    | _ => idtac
    end; cmp_cases.
Qed.

End FloatOrder.


(** ** Facts about strings *)

Module StrFacts.



Lemma append_assoc (a b c : string) : (a ++ b) ++ c = a ++ b ++ c.
Proof. induction a as [|x a IH]; cbn; [reflexivity | rewrite IH; reflexivity]. Qed.

Lemma includes_empty (s : string) : includes s EmptyString = true.
Proof. destruct s; reflexivity. Qed.

End StrFacts.

(** ** Reference definitions used to state the properties *)

(** The magnitude and the time a feature carries, absent when it has no
    [properties]. *)
Definition raw_mag (f : Feature) : js float :=
  match properties f with
  | val p => p_mag p
  | _ => undefined
  end.

Definition raw_time (f : Feature) : js Z :=
  match properties f with
  | val p => p_time p
  | _ => undefined
  end.

(** A feature is complete when both are present. *)
Definition complete (f : Feature) : bool :=
  not_nullish (raw_mag f) && not_nullish (raw_time f).

(** The coordinate triple of a feature, when it has one. *)
Definition triple (f : Feature) : option (list (js float)) :=
  match geometry f with
  | val g =>
      match coordinates g with
      | val c => Some c
      | _ => None
      end
  | _ => None
  end.

(** [r] carries the coordinates of [f] by position, and [null] thrice when
    [f] has no triple. *)
Definition positional (f : Feature) (r : Event) : Prop :=
  match triple f with
  | Some c => lon r = at_index c 0 /\ lat r = at_index c 1 /\
              depth r = at_index c 2
  | None => lon r = null /\ lat r = null /\ depth r = null
  end.

(** [r] is the normalized form of [f]. *)
Definition normal_form (f : Feature) (r : Event) : Prop :=
  id r = f_id f /\ mag r = raw_mag f /\ time r = raw_time f /\
  (forall p, properties f = val p -> place r = p_place p /\ url r = p_url p) /\
  positional f r.

(** A record whose magnitude is a number a JSON document can hold:
    present and not NaN. *)
Definition valid_mag (r : Event) : bool :=
  match mag r with
  | val m => negb (is_nan m)
  | _ => false
  end.





(** ** Sample data *)

Module Sample.

Definition event (m : float) (p : js string) : Event :=
  mkEvent (val "ev") (val 1700000000000%Z) (val m) p undefined
          (val 10%float) (val (-150)%float) (val 61%float).

Definition alaska : Event := event 2.5 (val "Southern Alaska").
Definition california : Event := event 5.2 (val "Central California").
Definition nowhere : Event := event 1 undefined.
Definition micro : Event := event (-0.5) (val "Nevada").

Definition inputs (m : float) (rg : string) : Inputs := mkInputs "day" m rg.

End Sample.

(** Number of records that satisfy a test. *)
Definition count (P : Event -> bool) (records : list Event) : nat :=
  List.length (filter P records).

(** Number of records whose magnitude satisfies a test. *)
Definition count_mag (P : float -> bool) (records : list Event) : nat :=
  count (fun r => P (ToNumber (mag r))) records.

(** The depth of a record, 0 when it is missing. *)
Definition depth_or_zero (r : Event) : float :=
  match depth r with
  | val d => d
  | _ => zero
  end.

Definition valid_depth (r : Event) : bool := negb (is_nan (depth_or_zero r)).

Definition count_depth (P : float -> bool) (records : list Event) : nat :=
  count (fun r => P (depth_or_zero r)) records.

(** Half-open and unbounded ranges of numbers. *)
Definition below (hi : float) (x : float) : bool := lt x hi.
Definition between (lo hi : float) (x : float) : bool := ge x lo && lt x hi.
Definition at_least (lo : float) (x : float) : bool := ge x lo.

(** The sum of the counts of a dataset, when all of them are defined. *)
Definition sum_counts (d : list (option nat)) : option nat :=
  fold_right
    (fun x acc =>
       match x, acc with
       | Some n, Some m => Some (n + m)
       | _, _ => None
       end)
    (Some 0) d.

(** The order of strings by code units: a proper prefix comes first, and
    otherwise the first position where two strings differ decides. *)
Inductive lex_lt : string -> string -> Prop :=
| lex_prefix (c : ascii) (s : string) :
    lex_lt EmptyString (String c s)
| lex_head (c1 c2 : ascii) (s1 s2 : string) :
    (N_of_ascii c1 < N_of_ascii c2)%N ->
    lex_lt (String c1 s1) (String c2 s2)
| lex_tail (c : ascii) (s1 s2 : string) :
    lex_lt s1 s2 ->
    lex_lt (String c s1) (String c s2).

(** The label of a valid time value [t] for a window key. *)
Definition utc_label (windowKey : string) (t : Z) : string :=
  let month_day :=
    show_Z (Date.MonthFromTime t + 1) ++ "/" ++ show_Z (Date.DateFromTime t) in
  let hour := show_Z (Date.HourFromTime t) ++ ":00" in
  if String.eqb windowKey "hour" then hour
  else if String.eqb windowKey "day" then month_day ++ " " ++ hour
  else month_day.

(** A record that can be placed on the map. *)
Definition geolocated (r : Event) : bool :=
  not_nullish (lat r) && not_nullish (lon r).

(** The colour of a magnitude tier. *)
Definition tier_color (m : float) : string :=
  if ge m 5 then "#ff4d4f"        (* red *)
  else if ge m 4 then "#ff9f40"   (* orange *)
  else "#36a2eb".                 (* blue *)

(** The page after a failed fetch: what the [catch] clause leaves behind. *)
Definition failed (p : Fetch.Page) (e : Fetch.Error) : Fetch.Page :=
  Fetch.mkPage ("Failed to fetch live data: " ++ Fetch.message e)
               (Fetch.console p ++ [("Fetch error", e)])%list.

(** The loop [records.forEach(r => o[f(r)] = (o[f(r)] || 0) + 1)] for a
    key function [f], and the test "the record carries key [k]". *)
Definition tally (f : Event -> string) (records : list Event) (o : Obj.t) :
  Obj.t :=
  fold_left (fun o r => Obj.incr o (f r)) records o.

Definition has_label (f : Event -> string) (k : string) (r : Event) : bool :=
  String.eqb (f r) k.

(** A count read from an object, 0 when the key is missing. *)
Definition default0 (x : option nat) : nat :=
  match x with
  | Some n => n
  | None => 0
  end.

Definition bar_labels : list string :=
  ["0-1"; "1-2"; "2-3"; "3-4"; "4-5"; "5+"].

Definition pie_keys : list string := ["shallow"; "intermediate"; "deep"].

(** The order [a.sort()] compares with. *)
Definition le (a b : string) : Prop := String.leb a b = true.

(** ** Ordering the records: [filtered.sort((a,b) => b.time - a.time)] *)

(** ToNumber on a possibly absent time; [None] stands for NaN. *)
Definition time_num (x : js Z) : option Z :=
  match x with
  | undefined => None
  | null => Some 0%Z
  | val t => Some t
  end.

(** The comparator [(a, b) => b.time - a.time]. *)
Definition compare_time (a b : Event) : option Z :=
  match time_num (time b), time_num (time a) with
  | Some tb, Some ta => Some (tb - ta)%Z
  | _, _ => None
  end.

(** What [sort] makes of the comparator's answer: NaN counts as 0. *)
Definition SortCompare (a b : Event) : Z :=
  match compare_time a b with
  | Some v => v
  | None => 0%Z
  end.

(** [Array.prototype.sort] is stable: an element goes before the first
    element it does not have to follow. *)
Fixpoint insert_by_time (x : Event) (l : list Event) : list Event :=
  match l with
  | [] => [x]
  | y :: l' =>
      if (SortCompare x y <=? 0)%Z then x :: l else y :: insert_by_time x l'
  end.

Definition sort_by_time (l : list Event) : list Event :=
  fold_right insert_by_time [] l.

(** ** Table *)

(** A row of the table, as the values its four cells render: the link
    target, the time value printed by [toISOString], the magnitude and the
    depth printed by [toFixed(1)], and the place. *)
Record Row := mkRow {
  row_url : js string;
  row_time : Z;
  row_mag : float;
  row_depth : float;
  row_place : string
}.

Definition RangeError_time : Fetch.Error :=
  Fetch.mkError "Invalid time value".

Definition TypeError_toFixed : Fetch.Error :=
  Fetch.mkError "Cannot read properties of undefined (reading 'toFixed')".

(** The body of the loop of [populateTable]: [toISOString] throws on an
    invalid date, and [r.mag.toFixed] throws when [r.mag] is absent. *)
Definition table_row (r : Event) : Fetch.Completion Row :=
  match Date.of_value (time r) with
  | None => Fetch.Throw RangeError_time
  | Some t =>
      match mag r with
      | val m =>
          Fetch.Normal
            {| row_url := url r;
               row_time := t;
               row_mag := m;
               row_depth := num_or (depth r) 0;
               row_place := str_or (place r) "" |}
      | _ => Fetch.Throw TypeError_toFixed
      end
  end.

(** [forEach] appending rows to the table body; an exception leaves the
    rows appended so far. *)
Fixpoint append_rows (records : list Event) (tbody : list Row) :
  Fetch.Completion unit * list Row :=
  match records with
  | [] => (Fetch.Normal tt, tbody)
  | r :: rest =>
      match table_row r with
      | Fetch.Normal row => append_rows rest (tbody ++ [row])%list
      | Fetch.Throw e => (Fetch.Throw e, tbody)
      end
  end.

(** The table body is emptied first, whatever it held. *)
Definition populateTable (tbody : list Row) (records : list Event) :
  Fetch.Completion unit * list Row :=
  append_rows (firstn 200 records) [].

(** ** A refresh cycle *)

(** What a cycle draws on: the status line and console, the three chart
    slots, the table body and the marker layer. *)
Record Dashboard := mkDashboard {
  page : Fetch.Page;
  lineChart : option Chart;
  barChart : option Chart;
  pieChart : option Chart;
  tbody : list Row;
  markersLayer : MarkersLayer
}.

(** [updateAll].  The inputs are read twice: [before] the fetch is awaited
    (the feed and the status line) and [after] it (the filter and the
    labels); the user may have changed them in between. *)
Definition updateAll (w : Fetch.World) (before after : Inputs) (d : Dashboard) :
  Fetch.Completion unit * Dashboard :=
  match Fetch.fetchEarthquakes w before (page d) with
  | (Fetch.Throw e, p) =>
      (Fetch.Throw e,
       mkDashboard p (lineChart d) (barChart d) (pieChart d) (tbody d)
                   (markersLayer d))
  | (Fetch.Normal raw, p) =>
      let normalized := normalizeFeatures raw in
      let filtered := sort_by_time (filterRecords after normalized) in
      let line := Some (buildLineChart after filtered) in
      let bar := Some (buildBarChart filtered) in
      let pie := Some (buildPieChart filtered) in
      match populateTable (tbody d) filtered with
      | (Fetch.Throw e, rows) =>
          (Fetch.Throw e, mkDashboard p line bar pie rows (markersLayer d))
      | (Fetch.Normal _, rows) =>
          (Fetch.Normal tt,
           mkDashboard p line bar pie rows
                       (updateMap (markersLayer d) filtered))
      end
  end.

(** ** Auto-refresh timer *)

Module Timer.

(** The timers of the window: the handles of the running intervals and
    the next handle [setInterval] hands out (handles are positive). *)
Record Timers := mkTimers {
  running : list nat;
  next : nat
}.

(** The script's state: the timers and the variable [autoTimer]. *)
Record State := mkState {
  timers : Timers;
  autoTimer : option nat
}.

Definition init : State := mkState (mkTimers [] 1) None.

Definition setInterval (t : Timers) : nat * Timers :=
  (next t, mkTimers (next t :: running t) (S (next t))).

(** [clearInterval(h)]: nothing happens when no such interval runs. *)
Definition clearInterval (h : nat) (t : Timers) : Timers :=
  mkTimers (List.filter (fun h' => negb (Nat.eqb h' h)) (running t)) (next t).

(** [if(autoTimer)]: a handle is truthy unless it is 0. *)
Definition truthy_handle (h : option nat) : bool :=
  match h with
  | Some (S _) => true
  | _ => false
  end.

(** [startAutoRefresh], given whether the box is checked. *)
Definition startAutoRefresh (checked : bool) (s : State) : State :=
  let t :=
    match autoTimer s with
    | Some h => if truthy_handle (autoTimer s) then clearInterval h (timers s)
                else timers s
    | None => timers s
    end in
  if checked then
    let (h, t') := setInterval t in
    mkState t' (Some h)
  else mkState t (autoTimer s).

(** The box is toggled and [startAutoRefresh] runs on each change. *)
Definition toggles (boxes : list bool) (s : State) : State :=
  fold_left (fun s checked => startAutoRefresh checked s) boxes s.

End Timer.

(** ** Further reference definitions *)

(** [geo.features || []] *)
Definition feature_list (fs : js (list Feature)) : list Feature :=
  match fs with
  | val l => l
  | _ => []
  end.

(** The page after a successful fetch of [n] events. *)
Definition fetched (w : Fetch.World) (p : Fetch.Page) (n : nat) : Fetch.Page :=
  Fetch.mkPage ("Fetched " ++ Fetch.show_nat n ++ " events — " ++ Fetch.clock w)
               (Fetch.console p).

(** A record with another place. *)
Definition with_place (r : Event) (p : js string) : Event :=
  mkEvent (id r) (time r) (mag r) p (url r) (depth r) (lon r) (lat r).

(** The labels of the window "hour": one per hour of the day, and the one
    of an invalid date. *)
Definition hour_labels : list string :=
  ["NaN:00"; "0:00"; "1:00"; "2:00"; "3:00"; "4:00"; "5:00"; "6:00"; "7:00";
   "8:00"; "9:00"; "10:00"; "11:00"; "12:00"; "13:00"; "14:00"; "15:00";
   "16:00"; "17:00"; "18:00"; "19:00"; "20:00"; "21:00"; "22:00"; "23:00"].

(** Records whose time is a number (not [undefined]), and the order "at
    least as recent as" on them. *)
Definition has_time (r : Event) : bool :=
  match time_num (time r) with
  | Some _ => true
  | None => false
  end.

Definition newer_first (a b : Event) : Prop :=
  match time_num (time a), time_num (time b) with
  | Some ta, Some tb => (tb <= ta)%Z
  | _, _ => False
  end.

(** The records that carry the time [t]. *)
Definition at_time (t : Z) (r : Event) : bool :=
  match time_num (time r) with
  | Some t' => Z.eqb t' t
  | None => false
  end.

(** A record whose time is a valid date, and one for which a row can be
    built: its time is valid and its magnitude is present. *)
Definition in_range (r : Event) : bool :=
  match Date.of_value (time r) with
  | Some _ => true
  | None => false
  end.

Definition row_ok (r : Event) : bool := in_range r && not_nullish (mag r).

(** The row [row] shows the record [r]. *)
Definition shows (row : Row) (r : Event) : Prop :=
  Date.of_value (time r) = Some (row_time row) /\
  mag r = val (row_mag row) /\
  row_depth row = num_or (depth r) 0 /\
  row_place row = str_or (place r) "" /\
  row_url row = url r.

(** The records a cycle shows: the retained records, most recent first. *)
Definition shown (after : Inputs) (raw : list Feature) : list Event :=
  sort_by_time (filterRecords after (normalizeFeatures raw)).

(** A record with both a magnitude and a time. *)
Definition present (r : Event) : bool :=
  not_nullish (mag r) && not_nullish (time r).

(** A world whose feed answers 200 with the given features. *)
Definition serving (features : list Feature) : Fetch.World :=
  Fetch.mkWorld
    (fun _ => Fetch.Resolved (Fetch.mkResponse 200 (Fetch.JsonDoc (val features))))
    "12:00:00".

(** A feature with a time, a magnitude and a place, at 61N 150W, 10 km deep. *)
Definition feature (t : Z) (m : float) (p : string) : Feature :=
  mkFeature (val "f")
    (val (mkProperties (val t) (val m) (val p) undefined))
    (val (mkGeometry (val [val (-150)%float; val 61%float; val 10%float]))).

Definition blank : Dashboard :=
  mkDashboard (Fetch.mkPage "" []) None None None [] None.

(** The state of the timers the script can reach keeps this shape: the
    handles in use are positive and below the next handle, and at most one
    interval runs, the one [autoTimer] names. *)
Definition timer_inv (s : Timer.State) : Prop :=
  0 < Timer.next (Timer.timers s) /\
  match Timer.autoTimer s with
  | Some h => 0 < h < Timer.next (Timer.timers s)
  | None => True
  end /\
  (Timer.running (Timer.timers s) = [] \/
   exists h, Timer.running (Timer.timers s) = [h] /\
             Timer.autoTimer s = Some h).

(** ** Facts about dates *)

Module DateFacts.

Import Date.
Local Open Scope Z_scope.

Ltac split_tests :=
  repeat match goal with
         | |- context [?a <=? ?b] => destruct (Z.leb_spec a b)
         | |- context [?a <? ?b] => destruct (Z.ltb_spec a b)
         | |- context [?a =? ?b] => destruct (Z.eqb_spec a b)
         end.

(** [YearFromTime t] is the year the day of [t] falls in. *)
Lemma YearFromTime_spec (t : Z) :
  DayFromYear (YearFromTime t) <= Day t < DayFromYear (YearFromTime t + 1).
Proof.
  unfold YearFromTime. generalize (Day t) as d. intros d.
  unfold DayFromYear. split_tests; Z.div_mod_to_equations; lia.
Qed.

Lemma DayFromYear_next (y : Z) :
  DayFromYear (y + 1) = DayFromYear y + DaysInYear y.
Proof.
  unfold DayFromYear, DaysInYear.
  split_tests; cbn [negb]; Z.div_mod_to_equations; lia.
Qed.

Lemma DayFromYear_mono (y1 y2 : Z) :
  y1 <= y2 -> DayFromYear y1 <= DayFromYear y2.
Proof. unfold DayFromYear. intros H. Z.div_mod_to_equations. lia. Qed.

(** It is the largest year that starts on or before the day of [t]. *)
Lemma YearFromTime_largest (t y : Z) :
  DayFromYear y <= Day t -> y <= YearFromTime t.
Proof.
  intros Hy. destruct (Z_le_gt_dec y (YearFromTime t)) as [H|H]; [exact H|].
  pose proof (YearFromTime_spec t) as [_ Hlt].
  pose proof (DayFromYear_mono (YearFromTime t + 1) y). lia.
Qed.

Lemma DayWithinYear_range (t : Z) :
  0 <= DayWithinYear t < DaysInYear (YearFromTime t).
Proof.
  unfold DayWithinYear. pose proof (YearFromTime_spec t) as H.
  rewrite DayFromYear_next in H. lia.
Qed.

Lemma HourFromTime_range (t : Z) : 0 <= HourFromTime t <= 23.
Proof. unfold HourFromTime. Z.div_mod_to_equations. lia. Qed.

Lemma MonthFromTime_range (t : Z) : 0 <= MonthFromTime t <= 11.
Proof. unfold MonthFromTime. split_tests; lia. Qed.

Lemma InLeapYear_days (t : Z) :
  DaysInYear (YearFromTime t) = 365 + InLeapYear t /\
  0 <= InLeapYear t <= 1.
Proof.
  unfold InLeapYear, DaysInYear. generalize (YearFromTime t) as y. intros y.
  destruct (y mod 4 =? 0), (y mod 100 =? 0), (y mod 400 =? 0);
    cbn; lia.
Qed.

Lemma DateFromTime_range (t : Z) : 1 <= DateFromTime t <= 31.
Proof.
  pose proof (DayWithinYear_range t) as Hd.
  pose proof (InLeapYear_days t) as [Hl Hl01]. rewrite Hl in Hd. clear Hl.
  unfold DateFromTime, MonthFromTime.
  revert Hd Hl01. generalize (DayWithinYear t) as d, (InLeapYear t) as l.
  intros d l Hd Hl01.
  repeat match goal with
         | |- context [?a <? ?b] => destruct (Z.ltb_spec a b)
         end; cbn [Z.add]; lia.
Qed.

End DateFacts.

(** ** Fetcher *)

Module FetchFacts.
Import Fetch.

Lemma run_failure (w : World) (inp : Inputs) (p : Page) (e : Error) :
  failure (fetch w (getFeedUrl (timeWindow inp))) e ->
  fetchEarthquakes w inp p = (Normal [], failed p e).
Proof.
  unfold fetchEarthquakes, try_catch, bind, await_fetch.
  set (o := fetch w _). intros Hf.
  inversion Hf as [e' Ho | res Hok Ho | res e' Hok Hb Ho | res Hok Hb Ho];
    subst; unfold throw, ret; cbn.
  - reflexivity.
  - rewrite Hok. reflexivity.
  - rewrite Hok. cbn. unfold await_features. rewrite Hb. reflexivity.
  - rewrite Hok. cbn. unfold await_features. rewrite Hb. reflexivity.
Qed.

Lemma run_total (w : World) (inp : Inputs) (p : Page) :
  exists features p', fetchEarthquakes w inp p = (Normal features, p').
Proof.
  unfold fetchEarthquakes, try_catch, bind, await_fetch.
  destruct (fetch w _) as [e|res]; unfold throw, ret; cbn; [eauto|].
  destruct (ok res); cbn; [|eauto].
  unfold await_features.
  destruct (body res) as [e| |[| |fs]]; unfold throw, ret; cbn; eauto.
Qed.

Lemma run_absent_list (w : World) (inp : Inputs) (p : Page) res fs :
  fetch w (getFeedUrl (timeWindow inp)) = Resolved res ->
  ok res = true -> body res = JsonDoc fs -> not_nullish fs = false ->
  fetchEarthquakes w inp p =
    (Normal [], mkPage ("Fetched 0 events — " ++ clock w) (console p)).
Proof.
  intros Ho Hok Hb Hfs.
  unfold fetchEarthquakes, try_catch, bind, await_fetch.
  rewrite Ho. unfold ret; cbn. rewrite Hok. cbn.
  unfold await_features. rewrite Hb.
  destruct fs; try discriminate; reflexivity.
Qed.

End FetchFacts.

(** C1.  [fetchEarthquakes] always completes normally.  When the fetch
    fails (the network rejects, the status is not a success, the body is
    not JSON or is null) it returns the empty list and the status line
    reads "Failed to fetch live data: " followed by the error message.
    When a successful response has no feature list, it returns the empty
    list and reports zero events. *)
Theorem fetchEarthquakes_degrades
    (w : Fetch.World) (inp : Inputs) (p : Fetch.Page) :
  let outcome := Fetch.fetch w (getFeedUrl (timeWindow inp)) in
  let run := Fetch.fetchEarthquakes w inp p in
  (exists features p', run = (Fetch.Normal features, p')) /\
  (forall e, Fetch.failure outcome e ->
     exists p', run = (Fetch.Normal [], p') /\
       Fetch.STATUS p' = "Failed to fetch live data: " ++ Fetch.message e) /\
  (forall res fs,
     outcome = Fetch.Resolved res -> Fetch.ok res = true ->
     Fetch.body res = Fetch.JsonDoc fs -> not_nullish fs = false ->
     exists p', run = (Fetch.Normal [], p') /\
       Fetch.STATUS p' = "Fetched 0 events — " ++ Fetch.clock w).
Proof.
  cbv zeta. split; [apply FetchFacts.run_total | split].
  - intros e Hf. rewrite (FetchFacts.run_failure w inp p e Hf).
    eexists; split; reflexivity.
  - intros res fs Ho Hok Hb Hfs.
    rewrite (FetchFacts.run_absent_list w inp p res fs Ho Hok Hb Hfs).
    eexists; split; reflexivity.
Qed.

Lemma fetchEarthquakes_degrades_witness :
  let unavailable :=
    Fetch.mkResponse 503 (Fetch.NotJson (Fetch.mkError "")) in
  let w := Fetch.mkWorld (fun _ => Fetch.Resolved unavailable) "12:00:00" in
  exists p',
    Fetch.fetchEarthquakes w (Sample.inputs 0 "") (Fetch.mkPage "" []) =
      (Fetch.Normal [], p') /\
    Fetch.STATUS p' = "Failed to fetch live data: HTTP 503".
Proof.
  cbv zeta.
  destruct (fetchEarthquakes_degrades
              (Fetch.mkWorld
                 (fun _ => Fetch.Resolved
                             (Fetch.mkResponse 503
                                (Fetch.NotJson (Fetch.mkError ""))))
                 "12:00:00")
              (Sample.inputs 0 "") (Fetch.mkPage "" [])) as [_ [Hf _]].
  exact (Hf _ (Fetch.fail_status
                 (Fetch.mkResponse 503 (Fetch.NotJson (Fetch.mkError "")))
                 eq_refl)).
Defined.

(** ** Normalizer *)

Lemma normalizeFeature_normal_form (f : Feature) :
  normal_form f (normalizeFeature f).
Proof.
  unfold normal_form, positional, triple, raw_mag, raw_time, normalizeFeature.
  cbn. split; [reflexivity|].
  split; [destruct (properties f); reflexivity|].
  split; [destruct (properties f); reflexivity|].
  split; [intros p ->; split; reflexivity|].
  destruct (geometry f) as [| |g]; auto.
  destruct (coordinates g) as [| |c]; auto.
Qed.

Lemma normalizeFeature_complete (f : Feature) :
  not_nullish (mag (normalizeFeature f)) &&
  not_nullish (time (normalizeFeature f)) = complete f.
Proof.
  unfold complete, raw_mag, raw_time, normalizeFeature. cbn.
  destruct (properties f); reflexivity.
Qed.

Lemma normalizeFeatures_map_filter (features : list Feature) :
  normalizeFeatures features = map normalizeFeature (filter complete features).
Proof.
  unfold normalizeFeatures.
  induction features as [|f fs IH]; cbn [map filter]; [reflexivity|].
  rewrite normalizeFeature_complete, IH.
  destruct (complete f); reflexivity.
Qed.

(** C2.  The records produced are, in order, the normalized forms of the
    features that carry both a magnitude and a time: incomplete features
    are dropped and no other; [lon], [lat] and [depth] are the coordinates
    at positions 0, 1 and 2, and [null] when the triple is missing.  Every
    record produced has a magnitude and a time. *)
Theorem normalizeFeatures_spec (features : list Feature) :
  Forall2 normal_form (filter complete features) (normalizeFeatures features) /\
  Forall (fun r => not_nullish (mag r) = true /\ not_nullish (time r) = true)
         (normalizeFeatures features) /\
  List.length (normalizeFeatures features) =
    List.length features -
    List.length (filter (fun f => negb (complete f)) features).
Proof.
  rewrite normalizeFeatures_map_filter. repeat split.
  - induction (filter complete features) as [|f fs IH]; cbn [map];
      constructor; auto using normalizeFeature_normal_form.
  - rewrite Forall_map, Forall_forall. intros f Hf.
    apply filter_In in Hf as [_ Hc].
    rewrite <- normalizeFeature_complete in Hc.
    apply andb_true_iff in Hc. exact Hc.
  - rewrite length_map.
    induction features as [|f fs IH]; cbn [filter]; [reflexivity|].
    assert (Hle : List.length (filter (fun f => negb (complete f)) fs)
                  <= List.length fs) by apply filter_length_le.
    destruct (complete f); cbn [negb List.length]; lia.
Qed.

(** A feature without geometry, one with a short coordinate array and one
    without properties. *)
Example normalizeFeatures_example :
  let p := mkProperties (val 1000%Z) (val 1.5%float) (val "Hawaii") null in
  normalizeFeatures
    [mkFeature (val "a") (val p) null;
     mkFeature (val "b") (val p)
               (val (mkGeometry (val [val 1%float; val 2%float])));
     mkFeature (val "c") undefined
               (val (mkGeometry (val [val 1%float; val 2%float; val 3%float])))]
  = [mkEvent (val "a") (val 1000%Z) (val 1.5%float) (val "Hawaii") null
             null null null;
     mkEvent (val "b") (val 1000%Z) (val 1.5%float) (val "Hawaii") null
             undefined (val 1%float) (val 2%float)].
Proof. reflexivity. Qed.

(** ** Filter *)

Section FilterFacts.

Import FloatOrder.


Lemma valid_mag_inv (r : Event) :
  valid_mag r = true ->
  exists m, mag r = val m /\ is_nan m = false.
Proof.
  unfold valid_mag. destruct (mag r) as [| |m]; try discriminate.
  intros H. exists m. split; [reflexivity|].
  destruct (is_nan m); [discriminate | reflexivity].
Qed.


Lemma truthy_str_val (s : string) :
  truthy_str (val s) = negb (String.eqb s "").
Proof. destruct s; reflexivity. Qed.



(** A record kept under a threshold is kept under any lower one. *)
Lemma keep_record_lower (ia ib : Inputs) (r : Event) :
  region ia = region ib ->
  (minMag ia <=? minMag ib)%float = true ->
  keep_record ib r = true -> keep_record ia r = true.
Proof.
  intros Hreg Hle. unfold keep_record, regionText. rewrite Hreg.
  destruct (lt (ToNumber (mag r)) (minMag ib)) eqn:Hb; [discriminate|].
  destruct (lt (ToNumber (mag r)) (minMag ia)) eqn:Ha; [|auto].
  unfold lt in *. rewrite (ltb_leb_trans _ _ _ Ha Hle) in Hb. discriminate.
Qed.

End FilterFacts.

(** C3.  With the region text fixed, every record retained under a
    threshold is retained under any lower threshold, so the retained list
    does not grow when the threshold is raised. *)
Theorem filterRecords_monotone (ia ib : Inputs) (records : list Event) :
  region ia = region ib ->
  (minMag ia <=? minMag ib)%float = true ->
  incl (filterRecords ib records) (filterRecords ia records) /\
  List.length (filterRecords ib records) <=
  List.length (filterRecords ia records).
Proof.
  intros Hreg Hle. unfold filterRecords. split.
  - intros r Hr. apply filter_In in Hr as [Hin Hk].
    apply filter_In. split; [exact Hin|].
    exact (keep_record_lower ia ib r Hreg Hle Hk).
  - induction records as [|r rs IH]; cbn [filter]; [lia|].
    destruct (keep_record ib r) eqn:Hb.
    + rewrite (keep_record_lower ia ib r Hreg Hle Hb). cbn [List.length]. lia.
    + destruct (keep_record ia r); cbn [List.length]; lia.
Qed.

Lemma filterRecords_monotone_witness :
  let ia := Sample.inputs 1 "ALASKA" in
  let ib := Sample.inputs 3 "ALASKA" in
  let records := [Sample.alaska; Sample.california; Sample.nowhere] in
  incl (filterRecords ib records) (filterRecords ia records) /\
  List.length (filterRecords ib records) <=
  List.length (filterRecords ia records).
Proof.
  cbv zeta. apply filterRecords_monotone; [reflexivity | vm_compute; reflexivity].
Defined.




(** ** Counting with objects *)

Module ObjFacts.

Lemma get_set_same (o : Obj.t) (k : string) (v : nat) :
  Obj.get (Obj.set o k v) k = Some v.
Proof.
  induction o as [|[k' v'] o IH]; cbn.
  - rewrite String.eqb_refl. reflexivity.
  - destruct (String.eqb k' k) eqn:E; cbn; rewrite E; auto.
Qed.

Lemma get_set_other (o : Obj.t) (k k1 : string) (v : nat) :
  k <> k1 -> Obj.get (Obj.set o k v) k1 = Obj.get o k1.
Proof.
  intros Hne. induction o as [|[k' v'] o IH]; cbn.
  - apply String.eqb_neq in Hne. rewrite Hne. reflexivity.
  - destruct (String.eqb k' k) eqn:E; cbn.
    + apply String.eqb_eq in E. subst k'.
      apply String.eqb_neq in Hne. rewrite Hne. reflexivity.
    + rewrite IH. reflexivity.
Qed.

Lemma get_None (o : Obj.t) (k : string) :
  Obj.get o k = None <-> ~ In k (Obj.keys o).
Proof.
  induction o as [|[k' v'] o IH]; cbn.
  - tauto.
  - destruct (String.eqb_spec k' k) as [->|Hne].
    + split; [discriminate | tauto].
    + rewrite IH. tauto.
Qed.

Lemma keys_set_in (o : Obj.t) (k : string) (v : nat) :
  In k (Obj.keys o) -> Obj.keys (Obj.set o k v) = Obj.keys o.
Proof.
  induction o as [|[k' v'] o IH]; cbn; [tauto|].
  intros Hin. destruct (String.eqb_spec k' k) as [->|Hne]; cbn.
  - reflexivity.
  - f_equal. apply IH. tauto.
Qed.

Lemma keys_set_new (o : Obj.t) (k : string) (v : nat) :
  ~ In k (Obj.keys o) -> Obj.keys (Obj.set o k v) = (Obj.keys o ++ [k])%list.
Proof.
  induction o as [|[k' v'] o IH]; cbn; [reflexivity|].
  intros Hin. destruct (String.eqb_spec k' k) as [->|Hne]; cbn.
  - tauto.
  - f_equal. apply IH. tauto.
Qed.

Lemma keys_set_dec (o : Obj.t) (k : string) (v : nat) :
  (In k (Obj.keys o) /\ Obj.keys (Obj.set o k v) = Obj.keys o) \/
  (~ In k (Obj.keys o) /\
   Obj.keys (Obj.set o k v) = (Obj.keys o ++ [k])%list).
Proof.
  destruct (in_dec string_dec k (Obj.keys o)) as [Hin|Hin].
  - left. auto using keys_set_in.
  - right. auto using keys_set_new.
Qed.

Lemma get_incr (o : Obj.t) (k k1 : string) :
  default0 (Obj.get (Obj.incr o k) k1) =
  default0 (Obj.get o k1) + (if String.eqb k k1 then 1 else 0).
Proof.
  unfold Obj.incr. destruct (String.eqb_spec k k1) as [->|Hne].
  - rewrite get_set_same. reflexivity.
  - rewrite get_set_other by exact Hne. lia.
Qed.

(** After the loop, the count under a key has grown by the number of
    records that carry this key. *)
Lemma get_tally (f : Event -> string) (records : list Event) :
  forall (o : Obj.t) (k : string),
    default0 (Obj.get (tally f records o) k) =
    default0 (Obj.get o k) + count (has_label f k) records.
Proof.
  unfold tally, count, has_label.
  induction records as [|r rs IH]; intros o k; cbn [fold_left filter].
  - cbn. lia.
  - rewrite IH, get_incr.
    destruct (String.eqb (f r) k); cbn [List.length]; lia.
Qed.

Lemma keys_tally (f : Event -> string) (records : list Event) :
  forall (o : Obj.t) (k : string),
    In k (Obj.keys (tally f records o)) <->
    In k (Obj.keys o) \/ In k (map f records).
Proof.
  unfold tally.
  induction records as [|r rs IH]; intros o k; cbn [fold_left map In].
  - tauto.
  - rewrite IH. unfold Obj.incr.
    destruct (keys_set_dec o (f r)
                (default0 (Obj.get o (f r)) + 1)) as [[Hin E]|[Hin E]];
      fold (default0 (Obj.get o (f r))); rewrite E.
    + split; [tauto|]. intros [H|[<-|H]]; auto.
    + rewrite in_app_iff. cbn [In]. tauto.
Qed.

Lemma keys_tally_NoDup (f : Event -> string) (records : list Event) :
  forall o : Obj.t,
    NoDup (Obj.keys o) -> NoDup (Obj.keys (tally f records o)).
Proof.
  unfold tally.
  induction records as [|r rs IH]; intros o Hnd; cbn [fold_left];
    [exact Hnd|].
  apply IH. unfold Obj.incr.
  destruct (keys_set_dec o (f r)
              (default0 (Obj.get o (f r)) + 1)) as [[Hin E]|[Hin E]];
    fold (default0 (Obj.get o (f r))); rewrite E; [exact Hnd|].
  apply NoDup_app; [exact Hnd | repeat constructor; auto |].
  intros x Hx [<-|[]]. auto.
Qed.

(** When every key the loop touches exists beforehand, the keys and their
    order do not change. *)
Lemma keys_tally_fixed (f : Event -> string) (records : list Event) :
  forall o : Obj.t,
    (forall r, In (f r) (Obj.keys o)) ->
    Obj.keys (tally f records o) = Obj.keys o.
Proof.
  unfold tally.
  induction records as [|r rs IH]; intros o Hall; cbn [fold_left];
    [reflexivity|].
  assert (E : Obj.keys (Obj.incr o (f r)) = Obj.keys o)
    by (apply keys_set_in, Hall).
  rewrite IH; [exact E|]. intros r'. rewrite E. apply Hall.
Qed.

Lemma get_tally_Some (f : Event -> string) (records : list Event)
      (o : Obj.t) (k : string) :
  In k (Obj.keys (tally f records o)) ->
  Obj.get (tally f records o) k =
  Some (default0 (Obj.get o k) + count (has_label f k) records).
Proof.
  intros Hin. rewrite <- get_tally.
  destruct (Obj.get (tally f records o) k) eqn:E; [reflexivity|].
  apply get_None in E. contradiction.
Qed.

(** Records with pairwise different tests and one of them always true
    are split by the counts. *)
Lemma count_length_filter (P : Event -> bool) (records : list Event) :
  count P records + count (fun r => negb (P r)) records =
  List.length records.
Proof.
  unfold count. induction records as [|r rs IH]; cbn [filter]; [reflexivity|].
  destruct (P r); cbn [negb List.length]; lia.
Qed.

Lemma count_ext (P Q : Event -> bool) (records : list Event) :
  (forall r, In r records -> P r = Q r) ->
  count P records = count Q records.
Proof.
  intros H. unfold count. f_equal. apply filter_ext_in. exact H.
Qed.

End ObjFacts.

(** ** Magnitude and depth aggregators *)

Section BucketFacts.

Import FloatOrder ObjFacts.

Lemma lt_step (m a b : float) :
  (a <=? b)%float = true -> lt m a = true -> lt m b = true.
Proof. unfold lt. intros Hab Hma. exact (ltb_leb_trans m a b Hma Hab). Qed.

Lemma ge_negb_lt (m c : float) :
  is_nan m = false -> is_nan c = false -> ge m c = negb (lt m c).
Proof.
  intros Hm Hc. unfold ge, lt. rewrite (ltb_negb_leb m c Hm Hc).
  rewrite negb_involutive. reflexivity.
Qed.

Lemma mag_bucket_in (r : Event) : In (mag_bucket r) bar_labels.
Proof.
  unfold mag_bucket, bar_labels.
  repeat match goal with
         | |- context [if ?b then _ else _] => destruct b
         end; cbn; tauto.
Qed.

Lemma depth_cat_in (r : Event) : In (depth_cat r) pie_keys.
Proof.
  unfold depth_cat, pie_keys.
  repeat match goal with
         | |- context [if ?b then _ else _] => destruct b
         end; cbn; tauto.
Qed.

(** The bar chart in terms of the number of records per bucket. *)
Lemma buildBarChart_counts (records : list Event) :
  buildBarChart records =
  mkChart "bar" bar_labels
    (map (fun k => Some (count (has_label mag_bucket k) records)) bar_labels).
Proof.
  unfold buildBarChart.
  change (fold_left (fun b r => Obj.incr b (mag_bucket r)) records
                    empty_buckets)
    with (tally mag_bucket records empty_buckets).
  assert (Hk : Obj.keys (tally mag_bucket records empty_buckets) = bar_labels)
    by (apply keys_tally_fixed; intros r; apply mag_bucket_in).
  rewrite Hk. f_equal. apply map_ext_in. intros k Hin.
  rewrite get_tally_Some by (rewrite Hk; exact Hin).
  f_equal.
  cbn in Hin.
  repeat (destruct Hin as [<-|Hin]; [reflexivity|]). destruct Hin.
Qed.

Lemma buildPieChart_counts (records : list Event) :
  buildPieChart records =
  mkChart "doughnut"
    ["Shallow (0-70km)"; "Intermediate (70-300km)"; "Deep (300+ km)"]
    (map (fun k => Some (count (has_label depth_cat k) records)) pie_keys).
Proof.
  unfold buildPieChart.
  change (fold_left (fun c r => Obj.incr c (depth_cat r)) records empty_cats)
    with (tally depth_cat records empty_cats).
  assert (Hk : Obj.keys (tally depth_cat records empty_cats) = pie_keys)
    by (apply keys_tally_fixed; intros r; apply depth_cat_in).
  f_equal. cbn [map pie_keys].
  rewrite !get_tally_Some by (rewrite Hk; cbn; tauto).
  reflexivity.
Qed.

Lemma count_cons (P : Event -> bool) (r : Event) (rs : list Event) :
  count P (r :: rs) = (if P r then 1 else 0) + count P rs.
Proof. unfold count. cbn [filter]. destruct (P r); reflexivity. Qed.

Lemma list_sum_cons (x : nat) (l : list nat) :
  list_sum (x :: l) = x + list_sum l.
Proof. reflexivity. Qed.

Lemma list_sum_map_add {A} (a b : A -> nat) (l : list A) :
  list_sum (map (fun x => a x + b x) l) =
  list_sum (map a l) + list_sum (map b l).
Proof.
  induction l as [|x l IH]; cbn [map]; [reflexivity|].
  rewrite !list_sum_cons, IH. lia.
Qed.

Lemma list_sum_indicator_out (k0 : string) (ks : list string) :
  ~ In k0 ks ->
  list_sum (map (fun k => if String.eqb k0 k then 1 else 0) ks) = 0.
Proof.
  induction ks as [|k ks IH]; cbn [map In]; [reflexivity|].
  intros Hk. rewrite list_sum_cons, IH by tauto.
  destruct (String.eqb_spec k0 k) as [->|_]; [tauto | reflexivity].
Qed.

Lemma list_sum_indicator (k0 : string) (ks : list string) :
  NoDup ks -> In k0 ks ->
  list_sum (map (fun k => if String.eqb k0 k then 1 else 0) ks) = 1.
Proof.
  induction 1 as [|k ks Hk Hnd IH]; cbn [In map]; [tauto|].
  rewrite list_sum_cons. intros [->|Hin].
  - rewrite String.eqb_refl, list_sum_indicator_out by exact Hk.
    reflexivity.
  - destruct (String.eqb_spec k0 k) as [->|_]; [contradiction|].
    rewrite IH by exact Hin. reflexivity.
Qed.

(** Each record carries exactly one of a list of distinct keys, so the
    counts per key add up to the number of records. *)
Lemma count_partition (f : Event -> string) (ks : list string)
      (records : list Event) :
  NoDup ks -> (forall r, In (f r) ks) ->
  list_sum (map (fun k => count (has_label f k) records) ks) =
  List.length records.
Proof.
  intros Hnd Hin.
  induction records as [|r rs IH].
  - clear. induction ks as [|k ks IHk]; [reflexivity|].
    cbn [map]. rewrite list_sum_cons, IHk. reflexivity.
  - rewrite (map_ext _ (fun k => (if String.eqb (f r) k then 1 else 0) +
                                 count (has_label f k) rs))
      by (intros k; apply count_cons).
    rewrite list_sum_map_add, IH, list_sum_indicator by auto.
    reflexivity.
Qed.

Lemma sum_counts_map_Some {A} (g : A -> nat) (ks : list A) :
  sum_counts (map (fun k => Some (g k)) ks) = Some (list_sum (map g ks)).
Proof.
  induction ks as [|k ks IH]; cbn [map]; [reflexivity|].
  rewrite list_sum_cons. cbn [sum_counts fold_right].
  fold (sum_counts (map (fun k => Some (g k)) ks)). rewrite IH. reflexivity.
Qed.

(** The bucket of a record with a valid magnitude, as ranges. *)
Lemma mag_bucket_range (r : Event) :
  valid_mag r = true ->
  has_label mag_bucket "0-1" r = below 1 (ToNumber (mag r)) /\
  has_label mag_bucket "1-2" r = between 1 2 (ToNumber (mag r)) /\
  has_label mag_bucket "2-3" r = between 2 3 (ToNumber (mag r)) /\
  has_label mag_bucket "3-4" r = between 3 4 (ToNumber (mag r)) /\
  has_label mag_bucket "4-5" r = between 4 5 (ToNumber (mag r)) /\
  has_label mag_bucket "5+" r = at_least 5 (ToNumber (mag r)).
Proof.
  intros Hv. destruct (valid_mag_inv r Hv) as [m [Hm Hnan]].
  unfold has_label, mag_bucket, below, between, at_least.
  rewrite Hm. cbn [ToNumber].
  rewrite (ge_negb_lt m 1 Hnan eq_refl), (ge_negb_lt m 2 Hnan eq_refl),
    (ge_negb_lt m 3 Hnan eq_refl), (ge_negb_lt m 4 Hnan eq_refl),
    (ge_negb_lt m 5 Hnan eq_refl).
  pose proof (lt_step m 1 2 eq_refl) as H12.
  pose proof (lt_step m 2 3 eq_refl) as H23.
  pose proof (lt_step m 3 4 eq_refl) as H34.
  pose proof (lt_step m 4 5 eq_refl) as H45.
  destruct (lt m 1); [specialize (H12 eq_refl)|];
    (destruct (lt m 2); [specialize (H23 eq_refl)|]);
    (destruct (lt m 3); [specialize (H34 eq_refl)|]);
    (destruct (lt m 4); [specialize (H45 eq_refl)|]);
    destruct (lt m 5); try discriminate; cbn; tauto.
Qed.

(** Replacing a zero of either sign by +0 changes no comparison. *)
Lemma lt_zero_l (v c : float) :
  is_zero v = true -> lt zero c = lt v c.
Proof.
  intros Hz. apply is_zero_true in Hz as [s Hs].
  unfold lt. rewrite !ltb_spec, Hs. unfold SFltb.
  change (Prim2SF zero) with (S754_zero false).
  rewrite (SFcompare_zero_l s). reflexivity.
Qed.

Lemma lt_num_or_zero (r : Event) (c : float) :
  valid_depth r = true ->
  lt (num_or (depth r) 0) c = lt (depth_or_zero r) c.
Proof.
  unfold valid_depth, depth_or_zero, num_or, truthy_num.
  destruct (depth r) as [| |v]; try reflexivity.
  intros Hv. apply negb_true_iff in Hv. rewrite Hv, orb_false_r.
  destruct (is_zero v) eqn:Hz; cbn [negb]; [|reflexivity].
  apply lt_zero_l. exact Hz.
Qed.

(** The category of a record with a valid depth, as ranges. *)
Lemma depth_cat_range (r : Event) :
  valid_depth r = true ->
  has_label depth_cat "shallow" r = below 70 (depth_or_zero r) /\
  has_label depth_cat "intermediate" r = between 70 300 (depth_or_zero r) /\
  has_label depth_cat "deep" r = at_least 300 (depth_or_zero r).
Proof.
  intros Hv. unfold has_label, depth_cat, below, between, at_least.
  rewrite !(lt_num_or_zero r _ Hv).
  assert (Hnan : is_nan (depth_or_zero r) = false)
    by (apply negb_true_iff; exact Hv).
  rewrite (ge_negb_lt _ 70 Hnan eq_refl), (ge_negb_lt _ 300 Hnan eq_refl).
  pose proof (lt_step (depth_or_zero r) 70 300 eq_refl) as H.
  destruct (lt (depth_or_zero r) 70); [specialize (H eq_refl)|];
    destruct (lt (depth_or_zero r) 300); try discriminate; cbn; tauto.
Qed.

Lemma depth_cat_absent (r : Event) :
  nullish (depth r) = true -> depth_cat r = "shallow".
Proof.
  unfold depth_cat, num_or. destruct (depth r); [reflexivity..|discriminate].
Qed.

End BucketFacts.

(** C5, as amended.  For every list the bar chart has the six labels
    "0-1", "1-2", "2-3", "3-4", "4-5", "5+" in this order and six counts,
    zero included.  On records with valid magnitudes the counts are the
    numbers of records with magnitude below 1 (negative ones too), in
    [1,2), in [2,3), in [3,4), in [4,5) and at least 5. *)
Theorem buildBarChart_buckets (records : list Event) :
  labels (buildBarChart records) =
    ["0-1"; "1-2"; "2-3"; "3-4"; "4-5"; "5+"] /\
  List.length (data (buildBarChart records)) = 6 /\
  (forallb valid_mag records = true ->
   data (buildBarChart records) =
     [Some (count_mag (below 1) records);
      Some (count_mag (between 1 2) records);
      Some (count_mag (between 2 3) records);
      Some (count_mag (between 3 4) records);
      Some (count_mag (between 4 5) records);
      Some (count_mag (at_least 5) records)]).
Proof.
  rewrite buildBarChart_counts. cbn [labels data].
  split; [reflexivity | split; [reflexivity|]].
  intros Hv. rewrite forallb_forall in Hv.
  assert (E : forall k P,
             (forall r, valid_mag r = true ->
                        has_label mag_bucket k r =
                        P (ToNumber (mag r))) ->
             count (has_label mag_bucket k) records =
             count_mag P records).
  { intros k P H. apply ObjFacts.count_ext. intros r Hr. apply H, Hv, Hr. }
  unfold bar_labels. cbn [map].
  rewrite (E "0-1" (below 1)), (E "1-2" (between 1 2)),
    (E "2-3" (between 2 3)), (E "3-4" (between 3 4)),
    (E "4-5" (between 4 5)), (E "5+" (at_least 5))
    by (intros r Hr; apply (mag_bucket_range r Hr)).
  reflexivity.
Qed.

Lemma buildBarChart_buckets_witness :
  let records := [Sample.alaska; Sample.california; Sample.micro] in
  labels (buildBarChart records) =
    ["0-1"; "1-2"; "2-3"; "3-4"; "4-5"; "5+"] /\
  List.length (data (buildBarChart records)) = 6 /\
  data (buildBarChart records) =
    [Some (count_mag (below 1) records);
     Some (count_mag (between 1 2) records);
     Some (count_mag (between 2 3) records);
     Some (count_mag (between 3 4) records);
     Some (count_mag (between 4 5) records);
     Some (count_mag (at_least 5) records)].
Proof.
  cbv zeta.
  destruct (buildBarChart_buckets
              [Sample.alaska; Sample.california; Sample.micro])
    as [Hl [Hn Hd]].
  split; [exact Hl | split; [exact Hn | apply Hd; vm_compute; reflexivity]].
Defined.

(** C5 as stated fails on a negative magnitude: the record is counted
    under "0-1" although its magnitude is not in [0,1). *)
Lemma buildBarChart_negative_counterexample :
  exists records : list Event,
    forallb valid_mag records = true /\
    nth 0 (data (buildBarChart records)) None = Some 1 /\
    count_mag (between 0 1) records = 0.
Proof.
  exists [Sample.micro]. repeat split; vm_compute; reflexivity.
Qed.

(** C6.  For every list the doughnut chart has its three labels in the
    fixed order and three counts, zero included; a record without a depth
    is shallow.  On records whose depth, when present, is not NaN, the
    counts are the numbers of records with depth below 70, in [70,300)
    and at least 300, a missing depth counting as 0. *)
Theorem buildPieChart_categories (records : list Event) :
  labels (buildPieChart records) =
    ["Shallow (0-70km)"; "Intermediate (70-300km)"; "Deep (300+ km)"] /\
  List.length (data (buildPieChart records)) = 3 /\
  (forall r, nullish (depth r) = true ->
     depth_cat r = "shallow" /\ below 70 (depth_or_zero r) = true) /\
  (forallb valid_depth records = true ->
   data (buildPieChart records) =
     [Some (count_depth (below 70) records);
      Some (count_depth (between 70 300) records);
      Some (count_depth (at_least 300) records)]).
Proof.
  rewrite buildPieChart_counts. cbn [labels data].
  split; [reflexivity | split; [reflexivity | split]].
  - intros r Hr. split; [apply depth_cat_absent; exact Hr|].
    unfold depth_or_zero. destruct (depth r); [reflexivity..|discriminate].
  - intros Hv. rewrite forallb_forall in Hv.
    assert (E : forall k P,
               (forall r, valid_depth r = true ->
                          has_label depth_cat k r =
                          P (depth_or_zero r)) ->
               count (has_label depth_cat k) records =
               count_depth P records).
    { intros k P H. apply ObjFacts.count_ext. intros r Hr. apply H, Hv, Hr. }
    unfold pie_keys. cbn [map].
    rewrite (E "shallow" (below 70)), (E "intermediate" (between 70 300)),
      (E "deep" (at_least 300))
      by (intros r Hr; apply (depth_cat_range r Hr)).
    reflexivity.
Qed.

Lemma buildPieChart_categories_witness :
  let deep := mkEvent (val "d") (val 0%Z) (val 4.5%float) null null
                      (val 350%float) (val 1%float) (val 2%float) in
  let records := [Sample.alaska; Sample.nowhere; deep;
                  mkEvent undefined (val 0%Z) (val 1%float) null null
                          undefined undefined undefined] in
  data (buildPieChart records) =
    [Some (count_depth (below 70) records);
     Some (count_depth (between 70 300) records);
     Some (count_depth (at_least 300) records)] /\
  data (buildPieChart records) = [Some 3; Some 0; Some 1].
Proof.
  cbv zeta. split; [|vm_compute; reflexivity].
  apply buildPieChart_categories. vm_compute. reflexivity.
Defined.

(** C10.  For every list the six magnitude counts add up to the number of
    records, and so do the three depth counts: each aggregator counts every
    record exactly once. *)
Theorem aggregators_count_every_record (records : list Event) :
  List.length (data (buildBarChart records)) = 6 /\
  sum_counts (data (buildBarChart records)) = Some (List.length records) /\
  List.length (data (buildPieChart records)) = 3 /\
  sum_counts (data (buildPieChart records)) = Some (List.length records).
Proof.
  rewrite buildBarChart_counts, buildPieChart_counts. cbn [data].
  rewrite !sum_counts_map_Some.
  rewrite (count_partition mag_bucket bar_labels records);
    [|repeat constructor; cbn; intuition discriminate | apply mag_bucket_in].
  rewrite (count_partition depth_cat pie_keys records);
    [|repeat constructor; cbn; intuition discriminate | apply depth_cat_in].
  repeat split; reflexivity.
Qed.

(** C8.  Three features: magnitude 2.5 at "Alaska", magnitude 5.2 at
    "California", and one without a magnitude.  Normalization keeps the
    first two; the filter with threshold 3 and no region keeps the
    California record alone; its magnitude counts are 0,0,0,0,0,1. *)
Theorem pipeline_example (T1 T2 T3 : Z) (i1 i2 i3 : js string)
        (g1 g2 g3 : js Geometry) (u1 u2 u3 : js string) (p3 : js string)
        (m3 : js float) (w : string) :
  let f1 := mkFeature i1 (val (mkProperties (val T1) (val 2.5%float)
                                            (val "Alaska") u1)) g1 in
  let f2 := mkFeature i2 (val (mkProperties (val T2) (val 5.2%float)
                                            (val "California") u2)) g2 in
  let f3 := mkFeature i3 (val (mkProperties (val T3) m3 p3 u3)) g3 in
  let normalized := normalizeFeatures [f1; f2; f3] in
  let filtered := filterRecords (mkInputs w 3 "") normalized in
  nullish m3 = true ->
  normalized = [normalizeFeature f1; normalizeFeature f2] /\
  filtered = [normalizeFeature f2] /\
  place (normalizeFeature f2) = val "California" /\
  labels (buildBarChart filtered) =
    ["0-1"; "1-2"; "2-3"; "3-4"; "4-5"; "5+"] /\
  data (buildBarChart filtered) =
    [Some 0; Some 0; Some 0; Some 0; Some 0; Some 1].
Proof.
  cbv zeta. intros Hm3.
  assert (Hn : normalizeFeatures
                 [mkFeature i1 (val (mkProperties (val T1) (val 2.5%float)
                                                  (val "Alaska") u1)) g1;
                  mkFeature i2 (val (mkProperties (val T2) (val 5.2%float)
                                                  (val "California") u2)) g2;
                  mkFeature i3 (val (mkProperties (val T3) m3 p3 u3)) g3] =
               [normalizeFeature
                  (mkFeature i1 (val (mkProperties (val T1) (val 2.5%float)
                                                   (val "Alaska") u1)) g1);
                normalizeFeature
                  (mkFeature i2 (val (mkProperties (val T2) (val 5.2%float)
                                                   (val "California") u2)) g2)]).
  { rewrite normalizeFeatures_map_filter. unfold complete, raw_mag, raw_time.
    cbn. destruct m3; [reflexivity..|discriminate]. }
  rewrite Hn. repeat split; reflexivity.
Qed.

Lemma pipeline_example_witness :
  let f1 := mkFeature (val "ak1")
              (val (mkProperties (val 1000%Z) (val 2.5%float)
                                 (val "Alaska") undefined)) undefined in
  let f2 := mkFeature (val "ci2")
              (val (mkProperties (val 2000%Z) (val 5.2%float)
                                 (val "California") undefined)) undefined in
  let f3 := mkFeature (val "nc3")
              (val (mkProperties (val 3000%Z) null undefined undefined))
              undefined in
  let normalized := normalizeFeatures [f1; f2; f3] in
  let filtered := filterRecords (mkInputs "day" 3 "") normalized in
  normalized = [normalizeFeature f1; normalizeFeature f2] /\
  filtered = [normalizeFeature f2] /\
  place (normalizeFeature f2) = val "California" /\
  labels (buildBarChart filtered) =
    ["0-1"; "1-2"; "2-3"; "3-4"; "4-5"; "5+"] /\
  data (buildBarChart filtered) =
    [Some 0; Some 0; Some 0; Some 0; Some 0; Some 1].
Proof.
  cbv zeta.
  apply (pipeline_example 1000 2000 3000 (val "ak1") (val "ci2") (val "nc3")
           undefined undefined undefined undefined undefined undefined
           undefined null "day").
  reflexivity.
Defined.

(** ** Sorting labels *)

Module SortFacts.

Lemma ascii_compare_refl (c : ascii) : Ascii.compare c c = Eq.
Proof. unfold Ascii.compare. apply N.compare_refl. Qed.

Lemma ascii_compare_Eq (c1 c2 : ascii) : Ascii.compare c1 c2 = Eq -> c1 = c2.
Proof. apply Ascii.compare_eq_iff. Qed.

Lemma ltb_lex (a b : string) : String.ltb a b = true <-> lex_lt a b.
Proof.
  unfold String.ltb. revert b.
  induction a as [|c1 a IH]; intros [|c2 b]; cbn [String.compare].
  - split; [discriminate | inversion 1].
  - split; [constructor | reflexivity].
  - split; [discriminate | inversion 1].
  - unfold Ascii.compare.
    destruct (N.compare_spec (N_of_ascii c1) (N_of_ascii c2)) as [E|L|G].
    + assert (c1 = c2) as ->.
      { rewrite <- (ascii_N_embedding c1), <- (ascii_N_embedding c2), E.
        reflexivity. }
      rewrite IH. split; [constructor; assumption|].
      inversion 1; subst; [lia | assumption].
    + split; [intros _; apply lex_head; exact L | reflexivity].
    + split; [discriminate|].
      inversion 1; subst; lia.
Qed.

Lemma compare_trans_le (a b c : string) :
  String.compare a b <> Gt -> String.compare b c <> Gt ->
  String.compare a c <> Gt.
Proof.
  revert b c.
  induction a as [|x a IH]; intros [|y b] [|z c]; cbn [String.compare];
    try congruence.
  unfold Ascii.compare.
  destruct (N.compare_spec (N_of_ascii x) (N_of_ascii y)) as [E1|L1|G1];
    destruct (N.compare_spec (N_of_ascii y) (N_of_ascii z)) as [E2|L2|G2];
    destruct (N.compare_spec (N_of_ascii x) (N_of_ascii z)) as [E3|L3|G3];
    try congruence; try lia.
  apply IH.
Qed.

Lemma leb_trans (a b c : string) :
  String.leb a b = true -> String.leb b c = true -> String.leb a c = true.
Proof.
  unfold String.leb. intros Hab Hbc.
  pose proof (compare_trans_le a b c) as H.
  destruct (String.compare a b), (String.compare b c),
    (String.compare a c); try reflexivity; try discriminate;
    exfalso; apply H; congruence.
Qed.

Lemma leb_neq_ltb (a b : string) :
  String.leb a b = true -> a <> b -> String.ltb a b = true.
Proof.
  unfold String.leb, String.ltb. intros Hle Hne.
  destruct (String.compare a b) eqn:E; try reflexivity; try discriminate.
  apply String.compare_eq_iff in E. contradiction.
Qed.

Lemma sort_insert_perm (x : string) (l : list string) :
  Permutation (sort_insert x l) (x :: l).
Proof.
  induction l as [|y l IH]; cbn [sort_insert]; [reflexivity|].
  destruct (String.leb x y); [reflexivity|].
  rewrite IH. apply perm_swap.
Qed.

Lemma sort_perm (l : list string) : Permutation (sort l) l.
Proof.
  unfold sort. induction l as [|x l IH]; cbn [fold_right]; [reflexivity|].
  rewrite sort_insert_perm. constructor. exact IH.
Qed.

Lemma sort_insert_sorted (x : string) (l : list string) :
  StronglySorted le l -> StronglySorted le (sort_insert x l).
Proof.
  induction 1 as [|y l Hs IH Hall]; cbn [sort_insert].
  - repeat constructor.
  - destruct (String.leb x y) eqn:E.
    + constructor; [constructor; assumption|].
      constructor; [exact E|].
      rewrite Forall_forall in *. intros z Hz.
      exact (leb_trans x y z E (Hall z Hz)).
    + constructor; [exact IH|].
      assert (Hyx : le y x).
      { destruct (String.leb_total x y) as [H|H]; [congruence | exact H]. }
      rewrite Forall_forall in *. intros z Hz.
      apply (Permutation_in _ (sort_insert_perm x l)) in Hz.
      destruct Hz as [<-|Hz]; auto.
Qed.

Lemma sort_sorted (l : list string) : StronglySorted le (sort l).
Proof.
  unfold sort. induction l as [|x l IH]; cbn [fold_right].
  - constructor.
  - apply sort_insert_sorted. exact IH.
Qed.

(** Sorting distinct strings yields a strictly ascending list. *)
Lemma sort_strict (l : list string) :
  NoDup l -> StronglySorted lex_lt (sort l).
Proof.
  intros Hnd.
  assert (Hnd' : NoDup (sort l))
    by (apply (Permutation_NoDup (Permutation_sym (sort_perm l))); exact Hnd).
  pose proof (sort_sorted l) as Hs.
  induction Hs as [|x s Hs IH Hall]; constructor.
  - apply IH. inversion Hnd'; assumption.
  - inversion Hnd' as [|? ? Hx Hnd'']; subst.
    rewrite Forall_forall in *. intros z Hz.
    apply ltb_lex, leb_neq_ltb; [exact (Hall z Hz)|].
    intros ->. contradiction.
Qed.

End SortFacts.

(** ** Time-series aggregator *)

Section LineChartFacts.

Import ObjFacts SortFacts.

Lemma time_label_valid (inp : Inputs) (r : Event) (t : Z) :
  Date.of_value (time r) = Some t ->
  time_label inp r = utc_label (timeWindow inp) t.
Proof.
  unfold time_label, utc_label. intros ->. cbn.
  destruct (String.eqb (timeWindow inp) "hour"); [reflexivity|].
  destruct (String.eqb (timeWindow inp) "day"); [|reflexivity].
  rewrite StrFacts.append_assoc. reflexivity.
Qed.

Lemma group_by_label_keys (inp : Inputs) (records : list Event) (l : string) :
  In l (Obj.keys (group_by_label inp records)) <->
  exists r, In r records /\ time_label inp r = l.
Proof.
  unfold group_by_label.
  change (fold_left (fun grouped r => Obj.incr grouped (time_label inp r))
                    records [])
    with (tally (time_label inp) records []).
  rewrite keys_tally, in_map_iff. cbn. split.
  - intros [[]|[r [E Hr]]]. exists r. auto.
  - intros [r [Hr E]]. right. exists r. auto.
Qed.

Lemma group_by_label_get (inp : Inputs) (records : list Event) (l : string) :
  In l (Obj.keys (group_by_label inp records)) ->
  Obj.get (group_by_label inp records) l =
  Some (count (fun r => String.eqb (time_label inp r) l) records).
Proof.
  unfold group_by_label.
  change (fold_left (fun grouped r => Obj.incr grouped (time_label inp r))
                    records [])
    with (tally (time_label inp) records []).
  intros Hin. rewrite (get_tally_Some _ _ _ _ Hin). reflexivity.
Qed.

Lemma group_by_label_NoDup (inp : Inputs) (records : list Event) :
  NoDup (Obj.keys (group_by_label inp records)).
Proof.
  unfold group_by_label.
  change (fold_left (fun grouped r => Obj.incr grouped (time_label inp r))
                    records [])
    with (tally (time_label inp) records []).
  apply keys_tally_NoDup. constructor.
Qed.

End LineChartFacts.

(** C7.  The label of a record with a valid time is the UTC hour "H:00"
    for the window "hour", the UTC month/day and hour "M/D H:00" for
    "day", and the UTC month/day "M/D" otherwise.  The labels of the line
    chart are the labels carried by at least one record, each once, in
    strictly ascending order of code units, and the data pair each label
    with the number of records that carry it. *)
Theorem buildLineChart_spec (inp : Inputs) (records : list Event) :
  let chart := buildLineChart inp records in
  (forall r t, Date.of_value (time r) = Some t ->
     time_label inp r = utc_label (timeWindow inp) t) /\
  StronglySorted lex_lt (labels chart) /\
  (forall l, In l (labels chart) <->
             exists r, In r records /\ time_label inp r = l) /\
  data chart =
    map (fun l => Some (count (fun r => String.eqb (time_label inp r) l)
                              records))
        (labels chart).
Proof.
  cbv zeta. unfold buildLineChart. cbn [labels data].
  split; [intros r t; apply time_label_valid|].
  split; [apply SortFacts.sort_strict, group_by_label_NoDup|].
  split.
  - intros l. rewrite <- group_by_label_keys. split; intros H.
    + exact (Permutation_in _ (SortFacts.sort_perm _) H).
    + exact (Permutation_in _ (Permutation_sym (SortFacts.sort_perm _)) H).
  - apply map_ext_in. intros l Hl. apply group_by_label_get.
    exact (Permutation_in _ (SortFacts.sort_perm _) Hl).
Qed.

(** A run of the line chart on five records of two days. *)
Example buildLineChart_example :
  let ev t := mkEvent undefined (val t) (val 1%float) undefined undefined
                      undefined undefined undefined in
  buildLineChart (mkInputs "hour" 0 "")
    [ev 36000001; ev 0; ev 3600000; ev 36000000; ev 1]%Z =
  mkChart "line" ["0:00"; "10:00"; "1:00"] [Some 2; Some 2; Some 1] /\
  buildLineChart (mkInputs "week" 0 "")
    [ev 1709208000000; ev 951868800000; ev 1700000000000;
     ev 8640000000000001]%Z =
  mkChart "line" ["11/14"; "2/29"; "3/1"; "NaN/NaN"]
          [Some 1; Some 1; Some 1; Some 1].
Proof. split; vm_compute; reflexivity. Qed.

(** ** Map renderer *)

Section MapFacts.

Import FloatOrder.

Lemma updateMap_fold (ms : list Marker) (records : list Event) :
  fold_left
    (fun st r =>
       if nullish (lat r) || nullish (lon r) then st
       else addLayer st (circle r))
    records (Some ms) =
  Some (ms ++ map circle (filter geolocated records))%list.
Proof.
  revert ms. induction records as [|r rs IH]; intros ms;
    cbn [fold_left filter map].
  - rewrite app_nil_r. reflexivity.
  - unfold geolocated at 1. unfold nullish.
    destruct (not_nullish (lat r)), (not_nullish (lon r));
      cbn [negb orb andb]; try apply IH.
    cbn [addLayer option_map map]. rewrite IH, <- app_assoc. reflexivity.
Qed.

(** The product of a zero and 40000 is a zero. *)
Lemma mul_zero_40000 (m : float) :
  is_zero m = true -> exists s, Prim2SF (m * 40000) = S754_zero s.
Proof.
  intros Hz. apply is_zero_true in Hz as [s Hs].
  rewrite mul_spec, Hs. exists s. destruct s; reflexivity.
Qed.

Lemma Math_max_4000_zero (x : float) (s : bool) :
  Prim2SF x = S754_zero s -> Math_max 4000 x = 4000%float.
Proof.
  intros Hx. unfold Math_max.
  assert (Hnan : is_nan x = false)
    by (apply is_nan_false; rewrite Hx; discriminate).
  rewrite Hnan. cbn [orb].
  change (is_nan 4000) with false. cbn [orb].
  rewrite !ltb_spec, Hx.
  destruct s; reflexivity.
Qed.

(** On a valid magnitude, [(r.mag || 0) * 40000] and [r.mag * 40000]
    give the same radius. *)
Lemma marker_radius_valid (r : Event) :
  valid_mag r = true ->
  marker_radius r = Math_max 4000 (ToNumber (mag r) * 40000).
Proof.
  intros Hv. destruct (valid_mag_inv r Hv) as [m [Hm Hnan]].
  unfold marker_radius, num_or, truthy_num. rewrite Hm, Hnan.
  cbn [ToNumber]. rewrite orb_false_r.
  destruct (is_zero m) eqn:Hz; cbn [negb]; [|reflexivity].
  destruct (mul_zero_40000 m Hz) as [s Hs].
  rewrite (Math_max_4000_zero _ s Hs). reflexivity.
Qed.

End MapFacts.

(** C9, as amended.  Whatever markers were on the map before, after
    [updateMap] the markers are, in order, one circle for each geolocated
    record among the first 500 records, so at most 500.  On a record with
    a valid magnitude the radius is max(4000, mag * 40000) and the colour
    is red from magnitude 5, orange from 4 and blue below. *)
Theorem updateMap_markers (st : MarkersLayer) (records : list Event) :
  updateMap st records =
    Some (map circle (filter geolocated (firstn 500 records))) /\
  List.length (map circle (filter geolocated (firstn 500 records))) <= 500 /\
  (forall r, valid_mag r = true ->
     center (circle r) = (lat r, lon r) /\
     radius (circle r) = Math_max 4000 (ToNumber (mag r) * 40000) /\
     color (circle r) = tier_color (ToNumber (mag r))).
Proof.
  split; [|split].
  - unfold updateMap.
    assert (E : clearLayers (match st with
                             | Some _ => st
                             | None => initMap st
                             end) = Some []) by (destruct st; reflexivity).
    rewrite E, updateMap_fold. reflexivity.
  - rewrite length_map.
    pose proof (filter_length_le geolocated (firstn 500 records)) as H1.
    pose proof (firstn_le_length 500 records) as H2. lia.
  - intros r Hv. split; [reflexivity|].
    split; [apply marker_radius_valid; exact Hv | reflexivity].
Qed.

Lemma updateMap_markers_witness :
  let old := circle Sample.nowhere in
  let records := [Sample.california; Sample.alaska] in
  updateMap (Some [old]) records = Some [circle Sample.california;
                                         circle Sample.alaska] /\
  radius (circle Sample.california) = Math_max 4000 (5.2 * 40000) /\
  color (circle Sample.california) = "#ff4d4f" /\
  radius (circle Sample.micro) = 4000%float.
Proof.
  cbv zeta.
  destruct (updateMap_markers (Some [circle Sample.nowhere])
              [Sample.california; Sample.alaska]) as [Hm [_ Hr]].
  split; [exact Hm|].
  destruct (Hr Sample.california) as [_ [Hrad Hcol]];
    [vm_compute; reflexivity|].
  split; [exact Hrad|].
  split; [rewrite Hcol; vm_compute; reflexivity|].
  vm_compute. reflexivity.
Defined.

(** * Further properties *)

(** ** Fetcher: the two ways a fetch ends *)

(** X1.  A call of [fetchEarthquakes] ends in one of two ways.
    Either the response was a success carrying a JSON document: the
    features of the document are returned (none when the list is absent),
    the console is untouched and the status line reads "Fetched N events"
    with N their number.  Or the fetch failed: the empty list is returned,
    exactly one entry is added to the console and the status line names
    the error.  The status line never stays at "Fetching...". *)
Theorem fetchEarthquakes_outcomes
    (w : Fetch.World) (inp : Inputs) (p : Fetch.Page) :
  let outcome := Fetch.fetch w (getFeedUrl (timeWindow inp)) in
  let run := Fetch.fetchEarthquakes w inp p in
  (exists res fs,
     outcome = Fetch.Resolved res /\ Fetch.ok res = true /\
     Fetch.body res = Fetch.JsonDoc fs /\
     run = (Fetch.Normal (feature_list fs),
            fetched w p (List.length (feature_list fs)))) \/
  (exists e,
     Fetch.failure outcome e /\
     run = (Fetch.Normal [], failed p e)).
Proof.
  cbv zeta.
  destruct (Fetch.fetch w (getFeedUrl (timeWindow inp))) as [e|res] eqn:Ho.
  - right. exists e. split; [constructor|].
    apply FetchFacts.run_failure. rewrite Ho. constructor.
  - destruct (Fetch.ok res) eqn:Hok.
    + destruct (Fetch.body res) as [e| |fs] eqn:Hb.
      * right. exists e. split; [apply Fetch.fail_parse; assumption|].
        apply FetchFacts.run_failure. rewrite Ho.
        apply Fetch.fail_parse; assumption.
      * right. exists Fetch.TypeError_null.
        split; [apply Fetch.fail_null; assumption|].
        apply FetchFacts.run_failure. rewrite Ho.
        apply Fetch.fail_null; assumption.
      * left. exists res, fs. repeat split; try assumption.
        unfold Fetch.fetchEarthquakes, Fetch.try_catch, Fetch.bind,
          Fetch.await_fetch.
        rewrite Ho. unfold Fetch.ret; cbn. rewrite Hok. cbn.
        unfold Fetch.await_features. rewrite Hb.
        destruct fs; reflexivity.
    + right. eexists. split; [apply Fetch.fail_status; assumption|].
      apply FetchFacts.run_failure. rewrite Ho.
      apply Fetch.fail_status; assumption.
Qed.

(** ** Filter: composition, defaults and letter case *)

Section FilterMore.

Import FloatOrder.

Lemma filter_idem {A} (f : A -> bool) (l : list A) :
  filter f (filter f l) = filter f l.
Proof.
  induction l as [|x l IH]; cbn [filter]; [reflexivity|].
  destruct (f x) eqn:E; cbn [filter]; rewrite ?E, IH; reflexivity.
Qed.

Lemma filter_comm {A} (f g : A -> bool) (l : list A) :
  filter f (filter g l) = filter g (filter f l).
Proof.
  induction l as [|x l IH]; cbn [filter]; [reflexivity|].
  destruct (f x) eqn:Ef, (g x) eqn:Eg; cbn [filter];
    rewrite ?Ef, ?Eg, IH; reflexivity.
Qed.

Lemma lower_ascii_idem (c : ascii) : lower_ascii (lower_ascii c) = lower_ascii c.
Proof. destruct c as [[] [] [] [] [] [] [] []]; reflexivity. Qed.

Lemma is_space_lower (c : ascii) : is_space (lower_ascii c) = is_space c.
Proof. destruct c as [[] [] [] [] [] [] [] []]; reflexivity. Qed.

Lemma toLowerCase_idem (s : string) :
  toLowerCase (toLowerCase s) = toLowerCase s.
Proof.
  induction s as [|c s IH]; cbn [toLowerCase]; [reflexivity|].
  rewrite lower_ascii_idem, IH. reflexivity.
Qed.

Lemma toLowerCase_empty (s : string) :
  toLowerCase s = "" <-> s = "".
Proof. destruct s; cbn [toLowerCase]; split; congruence. Qed.

Lemma trimStart_lower (s : string) :
  trimStart (toLowerCase s) = toLowerCase (trimStart s).
Proof.
  induction s as [|c s IH]; cbn [toLowerCase trimStart]; [reflexivity|].
  rewrite is_space_lower. destruct (is_space c); [exact IH | reflexivity].
Qed.

Lemma trimEnd_lower (s : string) :
  trimEnd (toLowerCase s) = toLowerCase (trimEnd s).
Proof.
  induction s as [|c s IH]; cbn [toLowerCase trimEnd]; [reflexivity|].
  rewrite IH, is_space_lower.
  destruct (trimEnd s) as [|d t]; cbn [toLowerCase]; [|reflexivity].
  destruct (is_space c); reflexivity.
Qed.

(** Trimming and lower-casing can be done in either order. *)
Lemma trim_lower (s : string) : trim (toLowerCase s) = toLowerCase (trim s).
Proof. unfold trim. rewrite trimStart_lower, trimEnd_lower. reflexivity. Qed.

Lemma regionText_lower (w : string) (m : float) (rg : string) :
  regionText (mkInputs w m rg) = trim (toLowerCase rg).
Proof. unfold regionText. cbn. destruct rg; rewrite trim_lower; reflexivity. Qed.

Lemma keep_record_place (inp : Inputs) (r : Event) (p1 p2 : string) :
  toLowerCase p1 = toLowerCase p2 ->
  keep_record inp (with_place r (val p1)) =
  keep_record inp (with_place r (val p2)).
Proof.
  intros H. unfold keep_record, with_place. cbn [mag place].
  destruct (lt (ToNumber (mag r)) (minMag inp)); [reflexivity|].
  destruct (truthy_str (val (regionText inp))); [|reflexivity].
  rewrite H.
  assert (E : truthy_str (val p1) = truthy_str (val p2)).
  { destruct p1, p2; cbn in *; congruence. }
  rewrite E. reflexivity.
Qed.

(** A record is kept under the default threshold exactly when its
    magnitude is not below zero. *)
Lemma keep_record_default (inp : Inputs) (r : Event) :
  truthy_num (minMag_parsed inp) = false ->
  trim (region inp) = "" ->
  keep_record inp r = negb (lt (ToNumber (mag r)) 0).
Proof.
  intros Hm Hr. unfold keep_record, minMag, regionText. rewrite Hm.
  assert (E : str_or (val (region inp)) "" = region inp)
    by (destruct (region inp); reflexivity).
  rewrite E, Hr. cbn [toLowerCase truthy_str]. change zero with 0%float.
  destruct (lt (ToNumber (mag r)) 0); reflexivity.
Qed.

End FilterMore.

(** X2.  Filters compose.  Filtering an already filtered list by the same
    inputs changes nothing; the result of two filters does not depend on
    which one ran first; and with the region input fixed, a filter with a
    lower threshold applied after one with a higher threshold keeps
    everything. *)
Theorem filterRecords_compose (ia ib : Inputs) (records : list Event) :
  filterRecords ia (filterRecords ia records) = filterRecords ia records /\
  filterRecords ia (filterRecords ib records) =
  filterRecords ib (filterRecords ia records) /\
  (region ia = region ib ->
   (minMag ia <=? minMag ib)%float = true ->
   filterRecords ia (filterRecords ib records) = filterRecords ib records).
Proof.
  unfold filterRecords.
  split; [apply filter_idem | split; [apply filter_comm|]].
  intros Hreg Hle.
  induction records as [|r rs IH]; cbn [filter]; [reflexivity|].
  destruct (keep_record ib r) eqn:Hb; [|exact IH].
  cbn [filter]. rewrite (keep_record_lower ia ib r Hreg Hle Hb), IH.
  reflexivity.
Qed.

Lemma filterRecords_compose_witness :
  let ia := Sample.inputs 1 "a" in
  let ib := Sample.inputs 3 "a" in
  let records := [Sample.alaska; Sample.california; Sample.nowhere] in
  filterRecords ia (filterRecords ib records) = filterRecords ib records /\
  filterRecords ib records = [Sample.california].
Proof.
  cbv zeta. split; [|vm_compute; reflexivity].
  apply (filterRecords_compose (Sample.inputs 1 "a") (Sample.inputs 3 "a"));
    [reflexivity | vm_compute; reflexivity].
Defined.

(** X3.  When the minimum-magnitude input does not parse (or is zero) and
    the region input is blank, the filter keeps, in order, exactly the
    records whose magnitude is not below zero: an event with a negative
    magnitude is dropped even under these default inputs. *)
Theorem filterRecords_default (inp : Inputs) (records : list Event) :
  truthy_num (minMag_parsed inp) = false ->
  trim (region inp) = "" ->
  filterRecords inp records =
    filter (fun r => negb (lt (ToNumber (mag r)) 0)) records /\
  (forall r m, In r records -> mag r = val m -> lt m 0 = true ->
               ~ In r (filterRecords inp records)).
Proof.
  intros Hm Hr.
  assert (E : filterRecords inp records =
              filter (fun r => negb (lt (ToNumber (mag r)) 0)) records).
  { unfold filterRecords. apply filter_ext. intros r.
    apply keep_record_default; assumption. }
  split; [exact E|].
  intros r m _ Hmag Hlt Hin. rewrite E in Hin.
  apply filter_In in Hin as [_ Hk]. rewrite Hmag in Hk. cbn in Hk.
  unfold lt in *. rewrite Hlt in Hk. discriminate.
Qed.

Lemma filterRecords_default_witness :
  let inp := Sample.inputs nan "   " in
  let records := [Sample.micro; Sample.alaska; Sample.nowhere] in
  filterRecords inp records = [Sample.alaska; Sample.nowhere] /\
  ~ In Sample.micro (filterRecords inp records).
Proof.
  cbv zeta.
  destruct (filterRecords_default (Sample.inputs nan "   ")
              [Sample.micro; Sample.alaska; Sample.nowhere])
    as [E H]; [reflexivity | reflexivity |].
  split.
  - rewrite E. vm_compute. reflexivity.
  - apply (H Sample.micro (-0.5)%float);
      [left; reflexivity | reflexivity | vm_compute; reflexivity].
Defined.

(** X4.  The filter ignores letter case on both sides.  Two region inputs
    with the same lower-casing select the same records, and two records
    that differ only in the letter case of their place are both kept or
    both dropped. *)
Theorem filterRecords_case_insensitive
    (w : string) (m : float) (rg1 rg2 : string) (records : list Event) :
  toLowerCase rg1 = toLowerCase rg2 ->
  filterRecords (mkInputs w m rg1) records =
  filterRecords (mkInputs w m rg2) records /\
  (forall r p1 p2,
     toLowerCase p1 = toLowerCase p2 ->
     keep_record (mkInputs w m rg1) (with_place r (val p1)) =
     keep_record (mkInputs w m rg1) (with_place r (val p2))).
Proof.
  intros H. split.
  - unfold filterRecords. apply filter_ext. intros r.
    unfold keep_record. rewrite !regionText_lower, H. reflexivity.
  - intros r p1 p2 Hp. apply keep_record_place. exact Hp.
Qed.

Lemma filterRecords_case_insensitive_witness :
  let records := [Sample.alaska; Sample.california; Sample.nowhere] in
  filterRecords (Sample.inputs 0 "aLaSkA") records =
  filterRecords (Sample.inputs 0 "ALASKA") records /\
  filterRecords (Sample.inputs 0 "aLaSkA") records = [Sample.alaska].
Proof.
  cbv zeta. split; [|vm_compute; reflexivity].
  apply (filterRecords_case_insensitive "day" 0 "aLaSkA" "ALASKA").
  reflexivity.
Defined.

(** ** Aggregators: totals, order of the input, number of labels *)

Section ChartsMore.

Import ObjFacts SortFacts.

Lemma count_partition_in (f : Event -> string) (ks : list string)
      (records : list Event) :
  NoDup ks -> (forall r, In r records -> In (f r) ks) ->
  list_sum (map (fun k => count (has_label f k) records) ks) =
  List.length records.
Proof.
  intros Hnd Hin.
  induction records as [|r rs IH].
  - clear. induction ks as [|k ks IHk]; [reflexivity|].
    cbn [map]. rewrite list_sum_cons, IHk. reflexivity.
  - rewrite (map_ext _ (fun k => (if String.eqb (f r) k then 1 else 0) +
                                 count (has_label f k) rs))
      by (intros k; apply count_cons).
    rewrite list_sum_map_add, IH, list_sum_indicator;
      [reflexivity | exact Hnd | apply Hin; left; reflexivity |].
    intros r' Hr'. apply Hin. right. exact Hr'.
Qed.

Lemma count_perm (P : Event -> bool) (l1 l2 : list Event) :
  Permutation l1 l2 -> count P l1 = count P l2.
Proof.
  unfold count. induction 1 as [|x l1 l2 _ IH|x y l|l1 l2 l3 _ IH1 _ IH2];
    cbn [filter].
  - reflexivity.
  - destruct (P x); cbn [List.length]; rewrite IH; reflexivity.
  - destruct (P x), (P y); reflexivity.
  - congruence.
Qed.

(** Two ascending lists with the same elements are the same list. *)
Lemma sorted_perm_eq (l1 l2 : list string) :
  StronglySorted le l1 -> StronglySorted le l2 -> Permutation l1 l2 ->
  l1 = l2.
Proof.
  intros H1. revert l2.
  induction H1 as [|x1 t1 Hs1 IH Hall1]; intros l2 H2 Hp.
  - apply Permutation_nil in Hp. congruence.
  - destruct H2 as [|x2 t2 Hs2 Hall2].
    { apply Permutation_sym, Permutation_nil in Hp. discriminate. }
    assert (E : x1 = x2).
    { assert (In1 : In x1 (x2 :: t2))
        by (apply (Permutation_in _ Hp); left; reflexivity).
      assert (In2 : In x2 (x1 :: t1))
        by (apply (Permutation_in _ (Permutation_sym Hp)); left; reflexivity).
      destruct In1 as [E|In1]; [congruence|].
      destruct In2 as [E|In2]; [congruence|].
      rewrite Forall_forall in Hall1, Hall2.
      apply String.leb_antisym; [apply Hall1, In2 | apply Hall2, In1]. }
    subst x2. f_equal. apply IH; [exact Hs2|].
    exact (Permutation_cons_inv Hp).
Qed.

Lemma sort_perm_eq (l1 l2 : list string) :
  Permutation l1 l2 -> sort l1 = sort l2.
Proof.
  intros Hp. apply sorted_perm_eq; try apply sort_sorted.
  rewrite (sort_perm l1), Hp. symmetry. apply sort_perm.
Qed.

Lemma tally_keys_perm (f : Event -> string) (l1 l2 : list Event) :
  Permutation l1 l2 ->
  Permutation (Obj.keys (tally f l1 [])) (Obj.keys (tally f l2 [])).
Proof.
  intros Hp. apply NoDup_Permutation;
    try (apply keys_tally_NoDup; constructor).
  intros k. rewrite !keys_tally. cbn [Obj.keys map In].
  split; intros [[]|H]; right;
    [exact (Permutation_in _ (Permutation_map f Hp) H)
    |exact (Permutation_in _ (Permutation_map f (Permutation_sym Hp)) H)].
Qed.

Lemma buildLineChart_counts (inp : Inputs) (records : list Event) :
  buildLineChart inp records =
  mkChart "line"
    (sort (Obj.keys (tally (time_label inp) records [])))
    (map (fun l => Some (count (has_label (time_label inp) l) records))
         (sort (Obj.keys (tally (time_label inp) records [])))).
Proof.
  unfold buildLineChart, group_by_label.
  change (fold_left (fun grouped r => Obj.incr grouped (time_label inp r))
                    records [])
    with (tally (time_label inp) records []).
  f_equal. apply map_ext_in. intros l Hl.
  apply (get_tally_Some (time_label inp) records [] l).
  exact (Permutation_in _ (sort_perm _) Hl).
Qed.

Lemma lex_lt_irrefl (x : string) : ~ lex_lt x x.
Proof.
  induction x as [|c x IH]; intros H; inversion H; subst; [lia | auto].
Qed.

Lemma In_by_computation (x : string) (l : list string) :
  (if in_dec string_dec x l then true else false) = true -> In x l.
Proof. destruct (in_dec string_dec x l); [trivial | discriminate]. Qed.

Lemma hour_label_in (inp : Inputs) (r : Event) :
  timeWindow inp = "hour" -> In (time_label inp r) hour_labels.
Proof.
  intros Hw. unfold time_label. rewrite Hw. cbn [String.eqb Ascii.eqb].
  cbn -[hour_labels show_num Date.of_value Date.HourFromTime append].
  destruct (Date.of_value (time r)) as [t|];
    [|apply In_by_computation; vm_compute; reflexivity].
  cbn [Date.getUTCHours option_map show_num].
  pose proof (DateFacts.HourFromTime_range t) as Hh.
  assert (Hcases : exists n : nat,
             (n < 24)%nat /\ Date.HourFromTime t = Z.of_nat n).
  { exists (Z.to_nat (Date.HourFromTime t)). lia. }
  destruct Hcases as [n [Hn ->]].
  do 24 (destruct n as [|n];
         [apply In_by_computation; vm_compute; reflexivity|]).
  lia.
Qed.

End ChartsMore.

(** X5.  The line chart counts every record exactly once: its counts add
    up to the number of records.  It has as many counts as labels, never
    more labels than records, and no label at all for the empty list. *)
Theorem buildLineChart_total (inp : Inputs) (records : list Event) :
  let chart := buildLineChart inp records in
  sum_counts (data chart) = Some (List.length records) /\
  List.length (data chart) = List.length (labels chart) /\
  List.length (labels chart) <= List.length records /\
  buildLineChart inp [] = mkChart "line" [] [].
Proof.
  cbv zeta. rewrite buildLineChart_counts. cbn [labels data].
  set (ks := sort (Obj.keys (tally (time_label inp) records []))).
  assert (Hperm : Permutation ks (Obj.keys (tally (time_label inp) records [])))
    by apply SortFacts.sort_perm.
  assert (Hnd : NoDup ks).
  { apply (Permutation_NoDup (Permutation_sym Hperm)).
    apply ObjFacts.keys_tally_NoDup. constructor. }
  assert (Hin : forall l, In l ks <-> In l (map (time_label inp) records)).
  { intros l. split; intros H.
    - apply (Permutation_in _ Hperm) in H.
      apply ObjFacts.keys_tally in H as [[]|H]. exact H.
    - apply (Permutation_in _ (Permutation_sym Hperm)).
      apply ObjFacts.keys_tally. right. exact H. }
  split; [|split; [apply length_map | split; [|reflexivity]]].
  - rewrite sum_counts_map_Some, count_partition_in; [reflexivity | exact Hnd|].
    intros r Hr. apply Hin, in_map, Hr.
  - rewrite <- (length_map (time_label inp) records).
    apply NoDup_incl_length; [exact Hnd|].
    intros l Hl. apply Hin, Hl.
Qed.

(** X6.  The three charts do not depend on the order of the records: two
    lists that are permutations of each other give the same line chart,
    the same bar chart and the same doughnut chart. *)
Theorem charts_ignore_order (inp : Inputs) (l1 l2 : list Event) :
  Permutation l1 l2 ->
  buildLineChart inp l1 = buildLineChart inp l2 /\
  buildBarChart l1 = buildBarChart l2 /\
  buildPieChart l1 = buildPieChart l2.
Proof.
  intros Hp. split; [|split].
  - rewrite !buildLineChart_counts.
    rewrite (sort_perm_eq _ _ (tally_keys_perm (time_label inp) l1 l2 Hp)).
    f_equal. apply map_ext. intros l. f_equal. apply count_perm, Hp.
  - rewrite !buildBarChart_counts. f_equal.
    apply map_ext. intros k. f_equal. apply count_perm, Hp.
  - rewrite !buildPieChart_counts. f_equal.
    apply map_ext. intros k. f_equal. apply count_perm, Hp.
Qed.

Lemma charts_ignore_order_witness :
  let inp := Sample.inputs 0 "" in
  let l1 := [Sample.alaska; Sample.california; Sample.micro] in
  let l2 := [Sample.micro; Sample.alaska; Sample.california] in
  buildLineChart inp l1 = buildLineChart inp l2 /\
  buildBarChart l1 = buildBarChart l2 /\
  buildPieChart l1 = buildPieChart l2.
Proof.
  cbv zeta. apply charts_ignore_order.
  apply Permutation_sym.
  apply (Permutation_cons_app [Sample.alaska; Sample.california] []).
  reflexivity.
Defined.

(** X7.  For the window "hour" every label is one of "0:00" ... "23:00",
    or "NaN:00" for a record without a valid time, so the line chart has
    at most 25 labels however many records there are. *)
Theorem buildLineChart_hour_labels (inp : Inputs) (records : list Event) :
  timeWindow inp = "hour" ->
  incl (labels (buildLineChart inp records)) hour_labels /\
  List.length (labels (buildLineChart inp records)) <= 25 /\
  (forall r, In r records -> Date.of_value (time r) <> None ->
             time_label inp r <> "NaN:00").
Proof.
  intros Hw.
  assert (Hincl : incl (labels (buildLineChart inp records)) hour_labels).
  { intros l Hl. unfold buildLineChart in Hl. cbn [labels] in Hl.
    apply (Permutation_in _ (SortFacts.sort_perm _)) in Hl.
    apply group_by_label_keys in Hl as [r [_ <-]].
    apply hour_label_in, Hw. }
  split; [exact Hincl | split].
  - change 25 with (List.length hour_labels).
    apply NoDup_incl_length; [|exact Hincl].
    assert (Hs : StronglySorted lex_lt (labels (buildLineChart inp records)))
      by apply SortFacts.sort_strict, group_by_label_NoDup.
    clear Hincl. induction Hs as [|x l Hs IH Hall]; constructor; auto.
    intros Hx. rewrite Forall_forall in Hall.
    exact (lex_lt_irrefl x (Hall x Hx)).
  - intros r _ Ht. unfold time_label. rewrite Hw. cbn [String.eqb Ascii.eqb].
    cbn -[show_num Date.of_value Date.HourFromTime append].
    destruct (Date.of_value (time r)) as [t|]; [|congruence].
    cbn [Date.getUTCHours option_map show_num].
    pose proof (DateFacts.HourFromTime_range t) as Hh.
    assert (Hcases : exists n : nat,
               (n < 24)%nat /\ Date.HourFromTime t = Z.of_nat n).
    { exists (Z.to_nat (Date.HourFromTime t)). lia. }
    destruct Hcases as [n [Hn ->]].
    do 24 (destruct n as [|n]; [vm_compute; discriminate|]).
    lia.
Qed.

Lemma buildLineChart_hour_labels_witness :
  let ev t := mkEvent undefined t (val 1%float) undefined undefined
                      undefined undefined undefined in
  let records := [ev (val 3600000%Z); ev undefined; ev (val 7200001%Z);
                  ev (val 90000000%Z)] in
  List.length (labels (buildLineChart (mkInputs "hour" 0 "") records)) <= 25 /\
  labels (buildLineChart (mkInputs "hour" 0 "") records) =
    ["1:00"; "2:00"; "NaN:00"].
Proof.
  cbv zeta. split; [|vm_compute; reflexivity].
  apply (buildLineChart_hour_labels (mkInputs "hour" 0 "")). reflexivity.
Defined.

(** ** Map renderer: the radius of a marker *)

Section RadiusFacts.

Import FloatOrder.

Lemma shr_1_nonneg (mrs : shr_record) :
  (0 <= shr_m mrs)%Z -> (0 <= shr_m (shr_1 mrs))%Z.
Proof.
  destruct mrs as [m r s]. cbn [shr_m]. intros Hm.
  destruct m as [|[p|p|]|p]; cbn; lia.
Qed.

Lemma iter_pos_nonneg (n : positive) :
  forall mrs, (0 <= shr_m mrs)%Z -> (0 <= shr_m (iter_pos shr_1 n mrs))%Z.
Proof.
  induction n as [n IH|n IH|]; intros mrs Hm; cbn [iter_pos].
  - apply IH, IH, shr_1_nonneg, Hm.
  - apply IH, IH, Hm.
  - apply shr_1_nonneg, Hm.
Qed.

Lemma shr_fexp_nonneg (m e : Z) (l : location) :
  (0 <= m)%Z -> (0 <= shr_m (fst (shr_fexp prec emax m e l)))%Z.
Proof.
  intros Hm. unfold shr_fexp, shr.
  assert (H0 : (0 <= shr_m (shr_record_of_loc m l))%Z)
    by (destruct l as [|[]]; exact Hm).
  destruct (fexp prec emax (Zdigits2 m + e) - e)%Z; cbn [fst];
    auto using iter_pos_nonneg.
Qed.

Lemma round_nearest_even_nonneg (m : Z) (l : location) :
  (0 <= m)%Z -> (0 <= round_nearest_even m l)%Z.
Proof.
  intros Hm. destruct l as [|[]]; cbn [round_nearest_even]; try lia.
  destruct (Z.even m); lia.
Qed.

(** Rounding a positive mantissa never yields NaN. *)
Lemma binary_round_aux_not_nan (s : bool) (m : positive) (e : Z) (l : location) :
  binary_round_aux prec emax s (Zpos m) e l <> S754_nan.
Proof.
  unfold binary_round_aux.
  pose proof (shr_fexp_nonneg (Zpos m) e l ltac:(lia)) as H1.
  destruct (shr_fexp prec emax (Zpos m) e l) as [mrs' e'].
  cbn [fst] in H1.
  pose proof (shr_fexp_nonneg
                (round_nearest_even (shr_m mrs') (loc_of_shr_record mrs'))
                e' loc_Exact
                (round_nearest_even_nonneg _ _ H1)) as H2.
  destruct (shr_fexp prec emax _ e' loc_Exact) as [mrs'' e''].
  cbn [fst] in H2.
  destruct (shr_m mrs'') as [|p|p]; [discriminate | | lia].
  destruct (e'' <=? emax - prec)%Z; discriminate.
Qed.

(** Scaling a number by 40000 never yields NaN. *)
Lemma mul_40000_not_nan (v : float) :
  is_nan v = false -> is_nan (v * 40000) = false.
Proof.
  rewrite !is_nan_false, mul_spec. intros Hv.
  change (Prim2SF 40000) with (S754_finite false 5497558138880000 (-37)).
  unfold SF64mul, SFmul.
  destruct (Prim2SF v) as [s|s| |s m e]; try discriminate; try congruence.
  apply binary_round_aux_not_nan.
Qed.

Lemma num_or_not_nan (x : js float) : is_nan (num_or x 0) = false.
Proof.
  unfold num_or, truthy_num.
  destruct x as [| |v]; try reflexivity.
  destruct (is_zero v); cbn; [reflexivity|].
  destruct (is_nan v) eqn:E; cbn; [reflexivity | exact E].
Qed.

Lemma ltb_leb (a b : float) : (a <? b)%float = true -> (a <=? b)%float = true.
Proof.
  rewrite ltb_spec, leb_spec. unfold SFltb, SFleb.
  destruct (SFcompare (Prim2SF a) (Prim2SF b)) as [[]|]; congruence.
Qed.

(** [Math.max(a, b)] is at least [a] when neither is NaN. *)
Lemma Math_max_ge_l (a b : float) :
  is_nan a = false -> is_nan b = false -> ge (Math_max a b) a = true.
Proof.
  intros Ha Hb. unfold Math_max, ge. rewrite Ha, Hb. cbn [orb].
  assert (Haa : (a <=? a)%float = true).
  { rewrite leb_spec. unfold SFleb.
    rewrite SFcompare_refl by (apply is_nan_false, Ha). reflexivity. }
  destruct (a <? b)%float eqn:Hab; [apply ltb_leb, Hab|].
  destruct (b <? a)%float eqn:Hba; [exact Haa|].
  rewrite (ltb_negb_leb b a Hb Ha) in Hba.
  apply negb_false_iff in Hba.
  destruct (is_zero a && negb (get_sign a)); [exact Haa | exact Hba].
Qed.

End RadiusFacts.

(** X8.  The radius of a marker is a number, never NaN, and at least 4000
    metres, whatever the magnitude of the record: absent, zero, negative
    or NaN magnitudes all give a circle of 4000 metres or more. *)
Theorem marker_radius_floor (r : Event) :
  is_nan (radius (circle r)) = false /\
  ge (radius (circle r)) 4000 = true.
Proof.
  assert (H : ge (radius (circle r)) 4000 = true).
  { cbn [circle radius]. unfold marker_radius.
    apply Math_max_ge_l; [reflexivity|].
    apply mul_40000_not_nan, num_or_not_nan. }
  split; [|exact H].
  unfold ge in H. apply FloatOrder.leb_not_nan in H. apply H.
Qed.

(** ** Ordering the records by time *)

Section SortByTime.

Lemma insert_by_time_perm (x : Event) (l : list Event) :
  Permutation (insert_by_time x l) (x :: l).
Proof.
  induction l as [|y l IH]; cbn [insert_by_time]; [reflexivity|].
  destruct (SortCompare x y <=? 0)%Z; [reflexivity|].
  rewrite IH. apply perm_swap.
Qed.

Lemma sort_by_time_perm (l : list Event) : Permutation (sort_by_time l) l.
Proof.
  unfold sort_by_time. induction l as [|x l IH]; cbn [fold_right];
    [reflexivity|].
  rewrite insert_by_time_perm. constructor. exact IH.
Qed.

Lemma SortCompare_times (a b : Event) :
  has_time a = true -> has_time b = true ->
  ((SortCompare a b <= 0)%Z <-> newer_first a b) /\
  ((0 < SortCompare a b)%Z -> newer_first b a).
Proof.
  unfold has_time, SortCompare, compare_time, newer_first.
  destruct (time_num (time a)), (time_num (time b)); try discriminate.
  intros _ _. lia.
Qed.

Lemma newer_first_trans (a b c : Event) :
  newer_first a b -> newer_first b c -> newer_first a c.
Proof.
  unfold newer_first.
  destruct (time_num (time a)), (time_num (time b)), (time_num (time c));
    try tauto. lia.
Qed.

Lemma insert_by_time_sorted (x : Event) (l : list Event) :
  has_time x = true -> Forall (fun r => has_time r = true) l ->
  StronglySorted newer_first l ->
  StronglySorted newer_first (insert_by_time x l).
Proof.
  intros Hx Hl Hs. induction Hs as [|y l Hs IH Hall]; cbn [insert_by_time].
  - repeat constructor.
  - inversion Hl as [|? ? Hy Hl']; subst.
    destruct (SortCompare_times x y Hx Hy) as [Hle Hgt].
    destruct (Z.leb_spec (SortCompare x y) 0) as [H|H].
    + apply Hle in H. constructor; [constructor; assumption|].
      constructor; [exact H|].
      rewrite Forall_forall in *. intros z Hz.
      exact (newer_first_trans x y z H (Hall z Hz)).
    + constructor; [apply IH; exact Hl'|].
      rewrite Forall_forall in *. intros z Hz.
      apply (Permutation_in _ (insert_by_time_perm x l)) in Hz.
      destruct Hz as [<-|Hz]; auto.
Qed.

Lemma sort_by_time_sorted (l : list Event) :
  Forall (fun r => has_time r = true) l ->
  StronglySorted newer_first (sort_by_time l).
Proof.
  unfold sort_by_time. induction 1 as [|x l Hx Hl IH]; cbn [fold_right].
  - constructor.
  - apply insert_by_time_sorted; [exact Hx | | exact IH].
    rewrite Forall_forall in *. intros r Hr. apply Hl.
    exact (Permutation_in _ (sort_by_time_perm l) Hr).
Qed.

(** An inserted record only passes records that are strictly more recent,
    so it never passes a record with its own time. *)
Lemma insert_by_time_stable (t : Z) (x : Event) (l : list Event) :
  filter (at_time t) (insert_by_time x l) = filter (at_time t) (x :: l).
Proof.
  induction l as [|y l IH]; cbn [insert_by_time]; [reflexivity|].
  destruct (Z.leb_spec (SortCompare x y) 0) as [H|H]; [reflexivity|].
  cbn [filter] in *. rewrite IH.
  destruct (at_time t x) eqn:Ex; [|reflexivity].
  destruct (at_time t y) eqn:Ey; [|reflexivity].
  exfalso. unfold at_time, SortCompare, compare_time in *.
  destruct (time_num (time x)), (time_num (time y)); try discriminate.
  apply Z.eqb_eq in Ex, Ey. lia.
Qed.

Lemma sort_by_time_stable (t : Z) (l : list Event) :
  filter (at_time t) (sort_by_time l) = filter (at_time t) l.
Proof.
  unfold sort_by_time. induction l as [|x l IH]; cbn [fold_right];
    [reflexivity|].
  rewrite insert_by_time_stable. cbn [filter]. rewrite IH. reflexivity.
Qed.

End SortByTime.

(** X9.  Ordering by time rearranges the records without losing or
    adding any, and records with the same time keep their relative order.
    When every record has a time, the result runs from the most recent
    record to the oldest. *)
Theorem sort_by_time_spec (records : list Event) :
  Permutation (sort_by_time records) records /\
  (forall t, filter (at_time t) (sort_by_time records) =
             filter (at_time t) records) /\
  (forallb has_time records = true ->
   StronglySorted newer_first (sort_by_time records)).
Proof.
  split; [apply sort_by_time_perm | split].
  - intros t. apply sort_by_time_stable.
  - intros H. apply sort_by_time_sorted.
    rewrite Forall_forall. rewrite forallb_forall in H. exact H.
Qed.

Lemma sort_by_time_spec_witness :
  let ev i t := mkEvent (val i) (val t) (val 1%float) undefined undefined
                        undefined undefined undefined in
  let records := [ev "a" 10%Z; ev "b" 30%Z; ev "c" 10%Z; ev "d" 20%Z] in
  StronglySorted newer_first (sort_by_time records) /\
  sort_by_time records = [ev "b" 30%Z; ev "d" 20%Z; ev "a" 10%Z; ev "c" 10%Z].
Proof.
  cbv zeta. split; [|reflexivity].
  apply sort_by_time_spec. reflexivity.
Defined.

(** C9 as stated fails on a list in the order [updateAll] hands over, most
    recent first, when a record among the first 500 has no coordinates:
    here the most recent record has none and 500 geolocated records
    follow, so the 501st record is one of the first 500 geolocated
    records, yet it gets no marker. *)
Lemma updateMap_cap_counterexample :
  exists records : list Event,
    let unplaced := mkEvent (val "x") (val 1700000000001%Z) (val 1%float)
                            undefined undefined null null null in
    records = unplaced :: repeat Sample.alaska 500 /\
    sort_by_time records = records /\
    StronglySorted newer_first records /\
    List.length (firstn 500 (filter geolocated records)) = 500 /\
    option_map (@List.length Marker) (updateMap None records) = Some 499 /\
    updateMap None records <>
      Some (map circle (firstn 500 (filter geolocated records))).
Proof.
  eexists. cbv zeta. split; [reflexivity|].
  assert (Hsort :
            sort_by_time
              (mkEvent (val "x") (val 1700000000001%Z) (val 1%float)
                       undefined undefined null null null
               :: repeat Sample.alaska 500) =
            mkEvent (val "x") (val 1700000000001%Z) (val 1%float)
                    undefined undefined null null null
            :: repeat Sample.alaska 500)
    by (vm_compute; reflexivity).
  split; [exact Hsort|].
  split.
  { rewrite <- Hsort. apply sort_by_time_sorted.
    rewrite Forall_forall. intros r [<-|Hr]; [reflexivity|].
    apply repeat_spec in Hr. subst r. reflexivity. }
  split; [vm_compute; reflexivity|].
  assert (H : option_map (@List.length Marker)
                (updateMap None
                   (mkEvent (val "x") (val 1700000000001%Z) (val 1%float)
                            undefined undefined null null null
                    :: repeat Sample.alaska 500)) = Some 499)
    by (vm_compute; reflexivity).
  split; [exact H|].
  intros E. rewrite E in H. vm_compute in H. discriminate.
Qed.

(** ** Table *)

Section TableFacts.

Lemma table_row_ok (r : Event) :
  row_ok r = true -> exists row, table_row r = Fetch.Normal row /\ shows row r.
Proof.
  unfold row_ok, in_range, table_row, shows. intros H.
  apply andb_true_iff in H as [Ht Hm].
  destruct (Date.of_value (time r)) as [t|]; [|discriminate].
  destruct (mag r) as [| |m]; try discriminate.
  eexists. split; [reflexivity|]. cbn. auto.
Qed.

Lemma table_row_bad (r : Event) :
  row_ok r = false ->
  table_row r =
    Fetch.Throw (if in_range r then TypeError_toFixed else RangeError_time).
Proof.
  unfold row_ok, in_range, table_row.
  destruct (Date.of_value (time r)) as [t|]; [|reflexivity].
  destruct (mag r); try reflexivity. discriminate.
Qed.

Lemma append_rows_ok (records : list Event) :
  forall tb, forallb row_ok records = true ->
  exists rows,
    append_rows records tb = (Fetch.Normal tt, (tb ++ rows)%list) /\
    Forall2 shows rows records.
Proof.
  induction records as [|r rs IH]; intros tb H; cbn [append_rows forallb] in *.
  - exists []. rewrite app_nil_r. split; [reflexivity | constructor].
  - apply andb_true_iff in H as [Hr Hrs].
    destruct (table_row_ok r Hr) as [row [E Hsh]]. rewrite E.
    destruct (IH (tb ++ [row])%list Hrs) as [rows [E' Hall]].
    exists (row :: rows). rewrite E', <- app_assoc. split; [reflexivity|].
    constructor; assumption.
Qed.

Lemma append_rows_bad (good : list Event) (bad : Event) (rest : list Event) :
  forall tb, forallb row_ok good = true -> row_ok bad = false ->
  exists rows,
    append_rows (good ++ bad :: rest) tb =
      (Fetch.Throw (if in_range bad then TypeError_toFixed
                    else RangeError_time),
       (tb ++ rows)%list) /\
    Forall2 shows rows good.
Proof.
  induction good as [|r rs IH]; intros tb H Hbad;
    cbn [append_rows forallb app] in *.
  - exists []. rewrite (table_row_bad bad Hbad), app_nil_r.
    split; [reflexivity | constructor].
  - apply andb_true_iff in H as [Hr Hrs].
    destruct (table_row_ok r Hr) as [row [E Hsh]]. rewrite E.
    destruct (IH (tb ++ [row])%list Hrs Hbad) as [rows [E' Hall]].
    exists (row :: rows). rewrite E', <- app_assoc. split; [reflexivity|].
    constructor; assumption.
Qed.

End TableFacts.

(** X10.  When each of the first 200 records has a valid time and a
    magnitude, [populateTable] completes normally and the table holds one
    row per record among the first 200, in the order of the records, each
    showing its record; the rows held before are gone and there are never
    more than 200. *)
Theorem populateTable_rows (old : list Row) (records : list Event) :
  forallb row_ok (firstn 200 records) = true ->
  exists rows,
    populateTable old records = (Fetch.Normal tt, rows) /\
    Forall2 shows rows (firstn 200 records) /\
    List.length rows = Nat.min 200 (List.length records).
Proof.
  intros H. unfold populateTable.
  destruct (append_rows_ok (firstn 200 records) [] H) as [rows [E Hall]].
  exists rows. split; [exact E | split; [exact Hall|]].
  rewrite (Forall2_length Hall). apply length_firstn.
Qed.

Lemma populateTable_rows_witness :
  exists rows,
    populateTable [mkRow undefined 0 1 0 "old"]
                  [Sample.california; Sample.alaska] =
      (Fetch.Normal tt, rows) /\
    Forall2 shows rows [Sample.california; Sample.alaska] /\
    List.length rows = 2.
Proof.
  destruct (populateTable_rows [mkRow undefined 0 1 0 "old"]
              [Sample.california; Sample.alaska]) as [rows H];
    [vm_compute; reflexivity|].
  exists rows. exact H.
Defined.

(** X11.  [populateTable] stops at the first of the first 200 records for
    which no row can be built: it throws, a RangeError when the time of
    that record is not a valid date and a TypeError when its magnitude is
    absent, and the table is left with the rows of the records before it.
    Records past the 200th are never looked at. *)
Theorem populateTable_throws
    (old : list Row) (records good rest : list Event) (bad : Event) :
  firstn 200 records = (good ++ bad :: rest)%list ->
  forallb row_ok good = true ->
  row_ok bad = false ->
  exists rows,
    populateTable old records =
      (Fetch.Throw (if in_range bad then TypeError_toFixed
                    else RangeError_time), rows) /\
    Forall2 shows rows good.
Proof.
  intros E Hgood Hbad. unfold populateTable. rewrite E.
  destruct (append_rows_bad good bad rest [] Hgood Hbad) as [rows [E' Hall]].
  exists rows. split; assumption.
Qed.

Lemma populateTable_throws_witness :
  let late := mkEvent (val "late") (val 8640000000000001%Z) (val 1%float)
                      undefined undefined undefined undefined undefined in
  exists rows,
    populateTable [] [Sample.alaska; late; Sample.california] =
      (Fetch.Throw RangeError_time, rows) /\
    Forall2 shows rows [Sample.alaska].
Proof.
  cbv zeta.
  apply (populateTable_throws [] _ [Sample.alaska] [Sample.california]
           (mkEvent (val "late") (val 8640000000000001%Z) (val 1%float)
                    undefined undefined undefined undefined undefined));
    reflexivity.
Defined.

(** ** A refresh cycle *)

Section CycleFacts.

Lemma normalizeFeatures_present (raw : list Feature) :
  Forall (fun r => present r = true) (normalizeFeatures raw).
Proof.
  unfold normalizeFeatures, present. rewrite Forall_forall. intros r Hr.
  apply filter_In in Hr as [_ H]. exact H.
Qed.

Lemma shown_perm (after : Inputs) (raw : list Feature) :
  Permutation (shown after raw) (filterRecords after (normalizeFeatures raw)).
Proof. apply sort_by_time_perm. Qed.

Lemma shown_from_normalized (after : Inputs) (raw : list Feature) (r : Event) :
  In r (shown after raw) -> In r (normalizeFeatures raw).
Proof.
  intros H. apply (Permutation_in _ (shown_perm after raw)) in H.
  unfold filterRecords in H. apply filter_In in H as [H _]. exact H.
Qed.

Lemma shown_present (after : Inputs) (raw : list Feature) :
  Forall (fun r => present r = true) (shown after raw).
Proof.
  rewrite Forall_forall. intros r Hr.
  pose proof (normalizeFeatures_present raw) as H.
  rewrite Forall_forall in H. apply H.
  exact (shown_from_normalized after raw r Hr).
Qed.

Lemma present_has_time (r : Event) : present r = true -> has_time r = true.
Proof.
  unfold present, has_time. intros H. apply andb_true_iff in H as [_ H].
  destruct (time r); try discriminate. reflexivity.
Qed.

Lemma shown_sorted (after : Inputs) (raw : list Feature) :
  StronglySorted newer_first (shown after raw).
Proof.
  apply sort_by_time_sorted. rewrite Forall_forall. intros r Hr.
  apply present_has_time.
  pose proof (normalizeFeatures_present raw) as H.
  rewrite Forall_forall in H. apply H.
  unfold filterRecords in Hr. apply filter_In in Hr as [Hr _]. exact Hr.
Qed.

Lemma In_firstn {A} (n : nat) (l : list A) (x : A) :
  In x (firstn n l) -> In x l.
Proof.
  revert l. induction n as [|n IH]; intros [|y l]; cbn; try tauto.
  intros [H|H]; [left; exact H | right; apply IH, H].
Qed.

Lemma forallb_firstn {A} (f : A -> bool) (n : nat) (l : list A) :
  forallb f l = true -> forallb f (firstn n l) = true.
Proof.
  rewrite !forallb_forall. intros H x Hx. apply H.
  exact (In_firstn n l x Hx).
Qed.

Lemma chart_totals (after : Inputs) (records : list Event) :
  sum_counts (data (buildLineChart after records)) =
    Some (List.length records) /\
  sum_counts (data (buildBarChart records)) = Some (List.length records) /\
  sum_counts (data (buildPieChart records)) = Some (List.length records).
Proof.
  rewrite buildLineChart_counts, buildBarChart_counts, buildPieChart_counts.
  cbn [data]. rewrite !sum_counts_map_Some.
  rewrite (count_partition mag_bucket bar_labels records);
    [|repeat constructor; cbn; intuition discriminate | apply mag_bucket_in].
  rewrite (count_partition depth_cat pie_keys records);
    [|repeat constructor; cbn; intuition discriminate | apply depth_cat_in].
  split; [|split; reflexivity].
  set (ks := sort (Obj.keys (tally (time_label after) records []))).
  assert (Hperm : Permutation ks
                    (Obj.keys (tally (time_label after) records [])))
    by apply SortFacts.sort_perm.
  rewrite count_partition_in; [reflexivity | |].
  - apply (Permutation_NoDup (Permutation_sym Hperm)).
    apply ObjFacts.keys_tally_NoDup. constructor.
  - intros r Hr. apply (Permutation_in _ (Permutation_sym Hperm)).
    apply ObjFacts.keys_tally. right. apply in_map, Hr.
Qed.

(** The first record of a list ordered by time is at least as recent as
    every record of the list. *)
Lemma head_newest (h : Event) (rest : list Event) (r : Event) (t : Z) :
  StronglySorted newer_first (h :: rest) ->
  Forall (fun x => present x = true) (h :: rest) ->
  In r (h :: rest) -> time r = val t ->
  exists th, time h = val th /\ (t <= th)%Z.
Proof.
  intros Hs Hp Hin Ht.
  inversion Hp as [|? ? Hh _]; subst.
  unfold present in Hh. apply andb_true_iff in Hh as [_ Hh].
  destruct (time h) as [| |th] eqn:Eh; try discriminate.
  exists th. split; [reflexivity|].
  destruct Hin as [<-|Hin]; [rewrite Eh in Ht; injection Ht; lia|].
  inversion Hs as [|? ? _ Hall]; subst.
  rewrite Forall_forall in Hall. specialize (Hall r Hin).
  unfold newer_first in Hall. rewrite Eh, Ht in Hall. exact Hall.
Qed.

End CycleFacts.

(** X12.  When the fetch fails, the cycle still completes normally: the
    status line names the error, the line chart is drawn without labels,
    the bar and doughnut charts with all counts at zero, and the table
    and the map are emptied. *)
Theorem updateAll_fetch_failure
    (w : Fetch.World) (before after : Inputs) (d : Dashboard)
    (e : Fetch.Error) :
  Fetch.failure (Fetch.fetch w (getFeedUrl (timeWindow before))) e ->
  updateAll w before after d =
    (Fetch.Normal tt,
     mkDashboard
       (failed (page d) e)
       (Some (mkChart "line" [] []))
       (Some (mkChart "bar" bar_labels
                      [Some 0; Some 0; Some 0; Some 0; Some 0; Some 0]))
       (Some (mkChart "doughnut"
                      ["Shallow (0-70km)"; "Intermediate (70-300km)";
                       "Deep (300+ km)"]
                      [Some 0; Some 0; Some 0]))
       []
       (Some [])).
Proof.
  intros Hf. unfold updateAll.
  rewrite (FetchFacts.run_failure w before (page d) e Hf).
  cbn. destruct (markersLayer d); reflexivity.
Qed.

Lemma updateAll_fetch_failure_witness :
  let unavailable :=
    Fetch.mkResponse 503 (Fetch.NotJson (Fetch.mkError "")) in
  let w := Fetch.mkWorld (fun _ => Fetch.Resolved unavailable) "12:00:00" in
  let d := mkDashboard (Fetch.mkPage "" []) None None None
                       [mkRow undefined 0 1 0 "old"]
                       (Some [circle Sample.alaska]) in
  exists d',
    updateAll w (Sample.inputs 0 "") (Sample.inputs 0 "") d =
      (Fetch.Normal tt, d') /\
    tbody d' = [] /\ markersLayer d' = Some [] /\
    Fetch.STATUS (page d') = "Failed to fetch live data: HTTP 503".
Proof.
  cbv zeta. eexists. split.
  - apply (updateAll_fetch_failure
             (Fetch.mkWorld
                (fun _ => Fetch.Resolved
                            (Fetch.mkResponse 503
                               (Fetch.NotJson (Fetch.mkError ""))))
                "12:00:00")
             (Sample.inputs 0 "") (Sample.inputs 0 "")
             (mkDashboard (Fetch.mkPage "" []) None None None
                          [mkRow undefined 0 1 0 "old"]
                          (Some [circle Sample.alaska]))
             (Fetch.mkError "HTTP 503")).
    exact (Fetch.fail_status
             (Fetch.mkResponse 503 (Fetch.NotJson (Fetch.mkError "")))
             eq_refl).
  - repeat split.
Defined.

(** X13.  After a successful fetch the three charts are redrawn from the
    records the cycle shows, whether or not the table can be filled.  The
    records shown are the retained records, most recent first, each with
    a magnitude and a time; and the three charts account for every one of
    them: their counts all add up to the number of records shown. *)
Theorem updateAll_charts
    (w : Fetch.World) (before after : Inputs) (d : Dashboard)
    (raw : list Feature) (p' : Fetch.Page) :
  Fetch.fetchEarthquakes w before (page d) = (Fetch.Normal raw, p') ->
  let records := shown after raw in
  let d' := snd (updateAll w before after d) in
  page d' = p' /\
  lineChart d' = Some (buildLineChart after records) /\
  barChart d' = Some (buildBarChart records) /\
  pieChart d' = Some (buildPieChart records) /\
  Permutation records (filterRecords after (normalizeFeatures raw)) /\
  StronglySorted newer_first records /\
  Forall (fun r => present r = true) records /\
  sum_counts (data (buildLineChart after records)) =
    Some (List.length records) /\
  sum_counts (data (buildBarChart records)) = Some (List.length records) /\
  sum_counts (data (buildPieChart records)) = Some (List.length records).
Proof.
  intros Hrun. cbv zeta. unfold updateAll. rewrite Hrun.
  fold (shown after raw).
  destruct (chart_totals after (shown after raw)) as [Hl [Hb Hp]].
  assert (Hd : forall k : Fetch.Completion unit * list Row,
             let d' := snd (match k with
                            | (Fetch.Throw e, rows) =>
                                (Fetch.Throw e,
                                 mkDashboard p'
                                   (Some (buildLineChart after (shown after raw)))
                                   (Some (buildBarChart (shown after raw)))
                                   (Some (buildPieChart (shown after raw)))
                                   rows (markersLayer d))
                            | (Fetch.Normal _, rows) =>
                                (Fetch.Normal tt,
                                 mkDashboard p'
                                   (Some (buildLineChart after (shown after raw)))
                                   (Some (buildBarChart (shown after raw)))
                                   (Some (buildPieChart (shown after raw)))
                                   rows
                                   (updateMap (markersLayer d)
                                              (shown after raw)))
                            end) in
             page d' = p' /\
             lineChart d' = Some (buildLineChart after (shown after raw)) /\
             barChart d' = Some (buildBarChart (shown after raw)) /\
             pieChart d' = Some (buildPieChart (shown after raw)))
    by (intros [[u|e] rows]; cbn; auto).
  destruct (Hd (populateTable (tbody d) (shown after raw)))
    as [H1 [H2 [H3 H4]]].
  repeat split; try assumption.
  - apply shown_perm.
  - apply shown_sorted.
  - apply shown_present.
Qed.

Lemma updateAll_charts_witness :
  let raw := [feature 1000 2.5 "Alaska"; feature 3000 5.2 "California";
              feature 2000 4.1 "Nevada"] in
  let d' := snd (updateAll (serving raw) (Sample.inputs 0 "")
                           (Sample.inputs 3 "") blank) in
  barChart d' = Some (buildBarChart (shown (Sample.inputs 3 "") raw)) /\
  barChart d' =
    Some (mkChart "bar" bar_labels
                  [Some 0; Some 0; Some 0; Some 0; Some 1; Some 1]).
Proof.
  cbv zeta. split; [|vm_compute; reflexivity].
  eapply (updateAll_charts
            (serving [feature 1000 2.5 "Alaska"; feature 3000 5.2 "California";
                      feature 2000 4.1 "Nevada"])
            (Sample.inputs 0 "") (Sample.inputs 3 "") blank).
  reflexivity.
Defined.

(** X14.  When the fetch succeeds and every normalized record has a valid
    date, the cycle completes normally.  The table then shows the 200
    most recent retained records (all of them when there are fewer), most
    recent first, and the map holds one circle for each geolocated record
    among the 500 most recent, replacing the circles drawn before. *)
Theorem updateAll_completes
    (w : Fetch.World) (before after : Inputs) (d : Dashboard)
    (raw : list Feature) (p' : Fetch.Page) :
  Fetch.fetchEarthquakes w before (page d) = (Fetch.Normal raw, p') ->
  forallb in_range (normalizeFeatures raw) = true ->
  let records := shown after raw in
  exists d',
    updateAll w before after d = (Fetch.Normal tt, d') /\
    Forall2 shows (tbody d') (firstn 200 records) /\
    List.length (tbody d') = Nat.min 200 (List.length records) /\
    markersLayer d' =
      Some (map circle (filter geolocated (firstn 500 records))).
Proof.
  intros Hrun Hrange. cbv zeta. unfold updateAll. rewrite Hrun.
  fold (shown after raw).
  assert (Hok : forallb row_ok (firstn 200 (shown after raw)) = true).
  { apply forallb_firstn. rewrite forallb_forall. intros r Hr.
    unfold row_ok. apply andb_true_iff. split.
    - rewrite forallb_forall in Hrange. apply Hrange.
      exact (shown_from_normalized after raw r Hr).
    - pose proof (shown_present after raw) as Hp.
      rewrite Forall_forall in Hp. specialize (Hp r Hr).
      unfold present in Hp. apply andb_true_iff in Hp. apply Hp. }
  unfold populateTable.
  destruct (append_rows_ok (firstn 200 (shown after raw)) [] Hok)
    as [rows [E Hall]].
  rewrite E. cbn [app]. eexists. split; [reflexivity|].
  cbn [tbody markersLayer]. split; [exact Hall | split].
  - rewrite (Forall2_length Hall). apply length_firstn.
  - unfold updateMap.
    assert (Ec : clearLayers (match markersLayer d with
                              | Some _ => markersLayer d
                              | None => initMap (markersLayer d)
                              end) = Some [])
      by (destruct (markersLayer d); reflexivity).
    rewrite Ec, updateMap_fold. reflexivity.
Qed.

Lemma updateAll_completes_witness :
  let raw := [feature 1000 2.5 "Alaska"; feature 3000 5.2 "California";
              feature 2000 4.1 "Nevada"] in
  exists d',
    updateAll (serving raw) (Sample.inputs 0 "") (Sample.inputs 3 "") blank =
      (Fetch.Normal tt, d') /\
    Forall2 shows (tbody d') (firstn 200 (shown (Sample.inputs 3 "") raw)) /\
    List.length (tbody d') =
      Nat.min 200 (List.length (shown (Sample.inputs 3 "") raw)) /\
    markersLayer d' =
      Some (map circle
              (filter geolocated
                      (firstn 500 (shown (Sample.inputs 3 "") raw)))).
Proof.
  cbv zeta.
  eapply (updateAll_completes
            (serving [feature 1000 2.5 "Alaska"; feature 3000 5.2 "California";
                      feature 2000 4.1 "Nevada"])
            (Sample.inputs 0 "") (Sample.inputs 3 "") blank);
    reflexivity.
Defined.

(** X15.  A single retained record whose time lies beyond the last valid
    date (8.64e15 ms) makes the cycle fail: it is ordered first, the table
    throws a RangeError on it, and [updateAll] ends abruptly with the
    charts redrawn, the table empty and the map left as it was before the
    cycle. *)
Theorem updateAll_rejects
    (w : Fetch.World) (before after : Inputs) (d : Dashboard)
    (raw : list Feature) (p' : Fetch.Page) (r : Event) (t : Z) :
  Fetch.fetchEarthquakes w before (page d) = (Fetch.Normal raw, p') ->
  In r (filterRecords after (normalizeFeatures raw)) ->
  time r = val t -> (Date.maxTime < t)%Z ->
  updateAll w before after d =
    (Fetch.Throw RangeError_time,
     mkDashboard p'
       (Some (buildLineChart after (shown after raw)))
       (Some (buildBarChart (shown after raw)))
       (Some (buildPieChart (shown after raw)))
       []
       (markersLayer d)).
Proof.
  intros Hrun Hin Ht Hmax. unfold updateAll. rewrite Hrun.
  fold (shown after raw).
  pose proof (shown_sorted after raw) as Hs.
  pose proof (shown_present after raw) as Hp.
  apply (Permutation_in _ (Permutation_sym (shown_perm after raw))) in Hin.
  destruct (shown after raw) as [|h rest] eqn:E; [destruct Hin|].
  destruct (head_newest h rest r t Hs Hp Hin Ht) as [th [Hth Hle]].
  assert (Hbad : table_row h = Fetch.Throw RangeError_time).
  { unfold table_row, Date.of_value. rewrite Hth.
    destruct (Z.leb_spec (Z.abs th) Date.maxTime); [lia | reflexivity]. }
  unfold populateTable. cbn [firstn append_rows]. rewrite Hbad. reflexivity.
Qed.

Lemma updateAll_rejects_witness :
  let raw := [feature 1000 2.5 "Alaska";
              feature 8640000000000001 5.2 "California"] in
  let d := mkDashboard (Fetch.mkPage "" []) None None None
                       [mkRow undefined 0 1 0 "old"]
                       (Some [circle Sample.alaska]) in
  exists d',
    updateAll (serving raw) (Sample.inputs 0 "") (Sample.inputs 0 "") d =
      (Fetch.Throw RangeError_time, d') /\
    tbody d' = [] /\ markersLayer d' = Some [circle Sample.alaska].
Proof.
  cbv zeta. eexists. split.
  - eapply (updateAll_rejects
              (serving [feature 1000 2.5 "Alaska";
                        feature 8640000000000001 5.2 "California"])
              (Sample.inputs 0 "") (Sample.inputs 0 "") _ _ _
              (normalizeFeature (feature 8640000000000001 5.2 "California"))
              8640000000000001%Z).
    + reflexivity.
    + vm_compute. right. left. reflexivity.
    + reflexivity.
    + reflexivity.
  - split; reflexivity.
Defined.

(** ** Auto-refresh timer *)

Section TimerFacts.

Import Timer.

Lemma timer_inv_init : timer_inv init.
Proof. unfold timer_inv, init. cbn. auto. Qed.

(** One call of [startAutoRefresh] keeps the shape and leaves exactly one
    interval running when the box is checked, none otherwise. *)
Lemma startAutoRefresh_step (checked : bool) (s : State) :
  timer_inv s ->
  timer_inv (startAutoRefresh checked s) /\
  List.length (running (timers (startAutoRefresh checked s))) =
    (if checked then 1 else 0).
Proof.
  intros [Hnext [Hauto Hrun]].
  assert (Hclear :
            running (match autoTimer s with
                     | Some h => if truthy_handle (autoTimer s)
                                 then clearInterval h (timers s)
                                 else timers s
                     | None => timers s
                     end) = [] /\
            next (match autoTimer s with
                  | Some h => if truthy_handle (autoTimer s)
                              then clearInterval h (timers s)
                              else timers s
                  | None => timers s
                  end) = next (timers s)).
  { destruct (autoTimer s) as [h|] eqn:Ea.
    - destruct h as [|h]; [lia|]. cbn [truthy_handle clearInterval running next].
      split; [|reflexivity].
      destruct Hrun as [->|[h' [-> Eh]]]; [reflexivity|].
      injection Eh as <-. cbn [filter]. rewrite Nat.eqb_refl. reflexivity.
    - split; [|reflexivity].
      destruct Hrun as [H|[h' [_ Eh]]]; [exact H | discriminate]. }
  destruct Hclear as [Hr Hn].
  unfold startAutoRefresh, timer_inv.
  destruct checked; cbn [setInterval timers autoTimer running next].
  - rewrite Hr, Hn. repeat split; try lia.
    right. eexists. split; reflexivity.
  - rewrite Hr, Hn. repeat split; try lia; auto.
Qed.

Lemma toggles_inv (boxes : list bool) :
  forall s, timer_inv s -> timer_inv (toggles boxes s).
Proof.
  unfold toggles. induction boxes as [|b bs IH]; intros s Hs; cbn [fold_left].
  - exact Hs.
  - apply IH. apply startAutoRefresh_step, Hs.
Qed.

Lemma toggles_snoc (boxes : list bool) (b : bool) (s : State) :
  toggles (boxes ++ [b]) s = startAutoRefresh b (toggles boxes s).
Proof. unfold toggles. rewrite fold_left_app. reflexivity. Qed.

End TimerFacts.

(** X16.  However often the box is toggled, auto-refresh never leaks a
    timer: after any sequence of changes at most one interval runs; one
    runs exactly when the box was left checked by the last change, and
    none before the first change. *)
Theorem startAutoRefresh_single_timer (boxes : list bool) :
  let s := Timer.toggles boxes Timer.init in
  List.length (Timer.running (Timer.timers s)) <= 1 /\
  List.length (Timer.running (Timer.timers s)) =
    (if last boxes false then 1 else 0) /\
  (forall h, In h (Timer.running (Timer.timers s)) ->
             Timer.autoTimer s = Some h).
Proof.
  cbv zeta.
  assert (Hlen : List.length
                   (Timer.running (Timer.timers (Timer.toggles boxes Timer.init)))
                 = (if last boxes false then 1 else 0)).
  { induction boxes as [|b bs _] using rev_ind; [reflexivity|].
    rewrite last_last, toggles_snoc.
    apply startAutoRefresh_step, toggles_inv, timer_inv_init. }
  split; [rewrite Hlen; destruct (last boxes false); lia | split; [exact Hlen|]].
  intros h Hh.
  destruct (toggles_inv boxes Timer.init timer_inv_init) as [_ [_ Hrun]].
  destruct Hrun as [E|[h' [E Ea]]]; rewrite E in Hh; [destruct Hh|].
  destruct Hh as [<-|[]]. exact Ea.
Qed.

(** ** Feed selector *)

(** X17.  The selector sends "hour" and no other key to the hourly feed
    [all_hour.geojson], "day" and no other key to the daily feed
    [all_day.geojson], and every other key, "week" or unknown, to the
    weekly feed [all_week.geojson]. *)
Theorem getFeedUrl_fallback (windowKey : string) :
  (getFeedUrl windowKey =
     "https://earthquake.usgs.gov/earthquakes/feed/v1.0/summary/all_hour.geojson"
   <-> windowKey = "hour") /\
  (getFeedUrl windowKey =
     "https://earthquake.usgs.gov/earthquakes/feed/v1.0/summary/all_day.geojson"
   <-> windowKey = "day") /\
  (getFeedUrl windowKey =
     "https://earthquake.usgs.gov/earthquakes/feed/v1.0/summary/all_week.geojson"
   <-> windowKey <> "hour" /\ windowKey <> "day").
Proof.
  unfold getFeedUrl.
  destruct (String.eqb_spec windowKey "hour") as [->|Hh];
    [|destruct (String.eqb_spec windowKey "day") as [->|Hd]];
    cbn; repeat split; intros; try discriminate; try congruence;
    intuition congruence.
Qed.

(** ** Features without coordinates *)

Section NoGeometry.

Import ObjFacts.

Lemma updateMap_eq (st : MarkersLayer) (records : list Event) :
  updateMap st records =
  Some (map circle (filter geolocated (firstn 500 records))).
Proof.
  unfold updateMap.
  assert (E : clearLayers (match st with
                           | Some _ => st
                           | None => initMap st
                           end) = Some []) by (destruct st; reflexivity).
  rewrite E, updateMap_fold. reflexivity.
Qed.

Lemma normalizeFeature_no_triple (f : Feature) :
  triple f = None ->
  geolocated (normalizeFeature f) = false /\
  depth_cat (normalizeFeature f) = "shallow".
Proof.
  unfold triple, geolocated, depth_cat, normalizeFeature. cbn.
  destruct (geometry f) as [| |g]; try (intros _; split; reflexivity).
  destruct (coordinates g) as [| |c]; try (intros _; split; reflexivity).
  discriminate.
Qed.

Lemma count_all (P : Event -> bool) (l : list Event) :
  Forall (fun r => P r = true) l -> count P l = List.length l.
Proof.
  unfold count. induction 1 as [|r l Hr _ IH]; cbn [filter]; [reflexivity|].
  rewrite Hr. cbn [List.length]. rewrite IH. reflexivity.
Qed.

Lemma count_none (P : Event -> bool) (l : list Event) :
  Forall (fun r => P r = false) l -> count P l = 0.
Proof.
  unfold count. induction 1 as [|r l Hr _ IH]; cbn [filter]; [reflexivity|].
  rewrite Hr. exact IH.
Qed.

Lemma filter_none {A} (P : A -> bool) (l : list A) :
  Forall (fun r => P r = false) l -> filter P l = [].
Proof.
  induction 1 as [|r l Hr _ IH]; cbn [filter]; [reflexivity|].
  rewrite Hr. exact IH.
Qed.

End NoGeometry.

(** X18.  Features that carry no coordinate triple are still normalized
    and counted, but never drawn: their records get no marker on the map,
    and the depth chart counts every one of them as shallow. *)
Theorem features_without_coordinates (st : MarkersLayer) (features : list Feature) :
  Forall (fun f => triple f = None) features ->
  let records := normalizeFeatures features in
  List.length records = List.length (filter complete features) /\
  updateMap st records = Some [] /\
  data (buildPieChart records) =
    [Some (List.length records); Some 0; Some 0].
Proof.
  intros Hno. cbv zeta. rewrite normalizeFeatures_map_filter.
  assert (Hall : Forall (fun r => geolocated r = false /\
                                  depth_cat r = "shallow")
                        (map normalizeFeature (filter complete features))).
  { rewrite Forall_map, Forall_forall. intros f Hf.
    apply filter_In in Hf as [Hf _]. rewrite Forall_forall in Hno.
    apply normalizeFeature_no_triple, Hno, Hf. }
  split; [apply length_map | split].
  - rewrite updateMap_eq, filter_none; [reflexivity|].
    rewrite Forall_forall in *. intros r Hr.
    apply Hall. exact (In_firstn 500 _ r Hr).
  - rewrite buildPieChart_counts. cbn [data map pie_keys].
    rewrite count_all, !count_none; [reflexivity | | |];
      rewrite Forall_forall in *; intros r Hr;
      destruct (Hall r Hr) as [_ Hc]; unfold has_label; rewrite Hc;
      reflexivity.
Qed.

Lemma features_without_coordinates_witness :
  let p := mkProperties (val 1000%Z) (val 1.5%float) (val "Hawaii") null in
  let features := [mkFeature (val "a") (val p) null;
                   mkFeature (val "b") (val p) (val (mkGeometry undefined));
                   mkFeature (val "c") undefined undefined] in
  List.length (normalizeFeatures features) = 2 /\
  updateMap (Some [circle Sample.alaska]) (normalizeFeatures features) =
    Some [] /\
  data (buildPieChart (normalizeFeatures features)) = [Some 2; Some 0; Some 0].
Proof.
  cbv zeta.
  destruct (features_without_coordinates
              (Some [circle Sample.alaska])
              [mkFeature (val "a")
                 (val (mkProperties (val 1000%Z) (val 1.5%float)
                                    (val "Hawaii") null)) null;
               mkFeature (val "b")
                 (val (mkProperties (val 1000%Z) (val 1.5%float)
                                    (val "Hawaii") null))
                 (val (mkGeometry undefined));
               mkFeature (val "c") undefined undefined])
    as [Hl [Hm Hd]].
  - repeat constructor.
  - split; [reflexivity | split; [exact Hm | exact Hd]].
Defined.
